(** * SIPDBot: session lifecycle and per-period download orchestration

    A shallow embedding of [src/bot_sipd.py].  The bot drives a browser
    through Playwright; every call into Playwright, the file system or the
    operator's prompt is an [Action] whose outcome (normal return or a Python
    exception) is decided by an environment, and every action and every
    printed line is appended to a chronological trace.  The methods of
    [SIPDBot] are programs in a state-and-exception monad over the fields of
    the instance and that trace. *)

From Stdlib Require Import ZArith List String Ascii Bool Lia Sorted.
From Stdlib Require Import DecimalString DecimalZ DecimalPos.
Import ListNotations.

Open Scope Z_scope.
Open Scope string_scope.

(** ** Python values used by the module *)

(** The exception classes the module names in an [except] clause, the
    [AttributeError] raised by an attribute access on [None], and any other
    instance of [Exception].  Signals that derive from [BaseException] only
    (a keyboard interrupt, an interpreter exit) are not exceptions in this
    sense and are outside the model. *)
Inductive exn_class : Type :=
| PlaywrightTimeoutError
| IndexError
| FileNotFoundError
| JSONDecodeError
| AttributeError
| OtherException.

Record exn : Type := mkExn { exn_cls : exn_class; exn_msg : string }.

Definition exn_class_eqb (a b : exn_class) : bool :=
  match a, b with
  | PlaywrightTimeoutError, PlaywrightTimeoutError
  | IndexError, IndexError
  | FileNotFoundError, FileNotFoundError
  | JSONDecodeError, JSONDecodeError
  | AttributeError, AttributeError
  | OtherException, OtherException => true
  | _, _ => false
  end.

(** The outcome of running a piece of Python: a value, or a raised exception. *)
Inductive result (A : Type) : Type :=
| Ok (a : A)
| Raise (e : exn).
Arguments Ok {A} a.
Arguments Raise {A} e.

(** Objects handed out by Playwright and by [open] are known by identity only. *)
Definition handle : Type := nat.

(** [page.locator(sel)], [.first], [.nth(k)] and [locator.locator(sel)] build a
    description lazily; nothing is sent to the browser until an action uses it. *)
Inductive Locator : Type :=
| page_locator (p : handle) (selector : string)
| locator_first (l : Locator)
| locator_nth (l : Locator) (n : Z)
| locator_locator (l : Locator) (selector : string).

(** Calls that leave the module.  Timeouts are in milliseconds, [None] when
    the call passes none. *)
Inductive Action : Type :=
| SyncPlaywrightStart
| ChromiumLaunch (pw : handle)
| NewContext (b : handle)
| NewPage (c : handle)
| Goto (p : handle) (url : string) (timeout : option Z)
| BringToFront (p : handle)
| Input (prompt : string)
| WaitFor (l : Locator) (state : option string) (timeout : option Z)
| Focus (l : Locator)
| Click (l : Locator)
| TypeText (l : Locator) (text : string)
| Press (l : Locator) (key : string)
| ExpectDownload (p : handle) (timeout : Z)
| SaveAs (d : handle) (path : string)
| OpenFile (name : string)
| JsonLoad (f : handle)
| AddCookies (c : handle) (cookies : string)
| ContextClose (c : handle)
| BrowserClose (b : handle)
| GetOutputPath (output_dir file_name : string).

Inductive Event : Type :=
| Printed (line : string)
| Called (a : Action)
| Created (a : Action) (h : handle)
| Raised (a : Action) (e : exn)
| FileClosed (f : handle).

(** What the program cannot decide: whether a call raises (given everything
    that happened before it), the calendar date, the parsed content of the
    cookie file, and the two helpers of [src.utils] that are imported but not
    part of this module. *)
Record Env : Type := mkEnv {
  oracle : list Event -> Action -> option exn;
  current_date : list Event -> string;
  cookies_json : list Event -> string;
  month_name : Z -> result string;
  output_path : string -> string -> string
}.

(** The fields set by [__init__]. *)
Record SIPDBot : Type := mkBot {
  browser : option handle;
  context : option handle;
  page : option handle
}.

Definition SIPDBot_init : SIPDBot :=
  {| browser := None; context := None; page := None |}.

Record State : Type := mkState {
  self : SIPDBot;
  trace : list Event;
  next_handle : handle
}.

Definition initial_state : State :=
  {| self := SIPDBot_init; trace := []; next_handle := 0%nat |}.

(** ** The monad *)

Definition M (A : Type) : Type := State -> result A * State.

Definition ret {A} (a : A) : M A := fun st => (Ok a, st).

Definition raise {A} (e : exn) : M A := fun st => (Raise e, st).

Definition bind {A B} (m : M A) (k : A -> M B) : M B :=
  fun st =>
    match m st with
    | (Ok a, st') => k a st'
    | (Raise e, st') => (Raise e, st')
    end.

Declare Scope py_scope.
Delimit Scope py_scope with py.
Notation "x <- m ;; k" := (bind m (fun x => k))
  (at level 100, m at next level, right associativity) : py_scope.
Notation "m ;; k" := (bind m (fun _ => k))
  (at level 100, right associativity) : py_scope.
Open Scope py_scope.

Definition lift {A} (r : result A) : M A := fun st => (r, st).

(** An [except] clause: which exceptions it matches and what it runs. *)
Record handler (A : Type) : Type := mkHandler {
  catches : exn -> bool;
  on_exn : exn -> M A
}.
Arguments mkHandler {A} catches on_exn.
Arguments catches {A} h e.
Arguments on_exn {A} h e.

Definition except (c : exn_class) {A} (k : exn -> M A) : handler A :=
  mkHandler (fun e => exn_class_eqb (exn_cls e) c) k.

Definition except_Exception {A} (k : exn -> M A) : handler A :=
  mkHandler (fun _ => true) k.

(** The first clause that matches runs; an exception no clause matches, or
    one raised by the clause itself, leaves the [try] statement. *)
Fixpoint dispatch {A} (hs : list (handler A)) (e : exn) : M A :=
  match hs with
  | [] => raise e
  | h :: hs' => if catches h e then on_exn h e else dispatch hs' e
  end.

Definition try_except {A} (body : M A) (hs : list (handler A)) : M A :=
  fun st =>
    match body st with
    | (Ok a, st') => (Ok a, st')
    | (Raise e, st') => dispatch hs e st'
    end.

Fixpoint for_each {A} (xs : list A) (body : A -> M unit) : M unit :=
  match xs with
  | [] => ret tt
  | x :: xs' => body x ;; for_each xs' body
  end.

(** [range(a, b)]: [a, a+1, ..., b-1], empty when [b <= a]. *)
Definition range (a b : Z) : list Z :=
  map (fun k => a + Z.of_nat k) (seq 0 (Z.to_nat (b - a))).

(** ** Text *)

Definition dquote : string := String (ascii_of_nat 34) EmptyString.
Definition newline : string := String (ascii_of_nat 10) EmptyString.

(** [str(i)] on an [int]. *)
Definition str (i : Z) : string := NilZero.string_of_int (Z.to_int i).

(** The format [{i:02}]: zero-padded to two characters, the sign counted. *)
Definition format_02 (i : Z) : string :=
  if ((0 <=? i)%Z && (i <? 10)%Z)%bool then "0" ++ str i else str i.

Definition has_text (tag text : string) : string :=
  tag ++ ":has-text(" ++ dquote ++ text ++ dquote ++ ")".

Module URL.
Definition _URL_LOGIN : string :=
  "https://sipd.kemendagri.go.id/penatausahaan/login".
Definition _URL_PENATAUSAHAAN : string :=
  "https://sipd.kemendagri.go.id/penatausahaan".
Definition _URL_PENATAUSAHAAN_REALISASI : string :=
  _URL_PENATAUSAHAAN ++ "/penatausahaan/pengeluaran/laporan/realisasi".
Definition _URL_AKLAP : string :=
  "https://sipd.kemendagri.go.id/penatausahaan/aklap".
End URL.
Import URL.

(** The lines [download_realisasi] prints. *)
Definition progress (i end_month : Z) : string :=
  "(" ++ str i ++ "/" ++ str end_month ++ ") --- ".

Definition msg_downloading (i end_month : Z) : string :=
  progress i end_month ++ "Downloading file...".

Definition msg_success (i end_month : Z) (download_name : string) : string :=
  progress i end_month ++ "Download success! File saved as " ++ download_name.

Definition msg_failed (i end_month : Z) (e : exn) : string :=
  progress i end_month ++ "Download failed: " ++ exn_msg e.

Definition msg_retrying : string := "Retrying...".

Definition msg_invalid (i end_month : Z) : string :=
  progress i end_month ++ "Invalid month! There are only 12 months.".

Definition msg_unexpected (i end_month : Z) (e : exn) : string :=
  progress i end_month ++ "Unexpected error: " ++ exn_msg e.

Definition msg_skipping : string := "Skipping to the next month.".

Definition msg_page_load (e : exn) : string :=
  "Page load timed out: " ++ exn_msg e.

Definition msg_critical (e : exn) : string :=
  "Critical error occurred: " ++ exn_msg e.

Definition msg_no_cookie_file : string :=
  "Error: cookies.json file not found. Please save cookies first.".

Definition msg_bad_cookie_json : string :=
  "Error: Invalid JSON format. Please re-save cookies!".

Definition msg_cookie_unexpected (e : exn) : string :=
  "An unexpected error occurred: " ++ exn_msg e.

(** The output naming of lines 214-215. *)
Definition download_dir (current_date : string) : string :=
  "Laporan Realisasi " ++ current_date.

Definition download_name (i : Z) : string :=
  "2024-" ++ format_02 i ++ "-Laporan Realisasi.xlsx".

Arguments String.append : simpl never.

(** ** The methods of [SIPDBot] *)

Section Bot.

Variable env : Env.

Definition log (ev : Event) (st : State) : State :=
  {| self := self st; trace := trace st ++ [ev]; next_handle := next_handle st |}.

Definition print (line : string) : M unit :=
  fun st => (Ok tt, log (Printed line) st).

(** A call that returns nothing the program keeps. *)
Definition call (a : Action) : M unit :=
  fun st =>
    match oracle env (trace st) a with
    | None => (Ok tt, log (Called a) st)
    | Some e => (Raise e, log (Raised a e) st)
    end.

(** A call that returns a new object. *)
Definition create (a : Action) : M handle :=
  fun st =>
    match oracle env (trace st) a with
    | None =>
        let h := next_handle st in
        (Ok h, {| self := self st;
                  trace := trace st ++ [Created a h];
                  next_handle := S h |})
    | Some e => (Raise e, log (Raised a e) st)
    end.

Definition none_has_no (attr : string) : exn :=
  mkExn AttributeError
    ("'NoneType' object has no attribute '" ++ attr ++ "'").

(** [self.page.attr], [self.context.attr], [self.browser.attr]. *)
Definition field (get : SIPDBot -> option handle) (attr : string) : M handle :=
  fun st =>
    match get (self st) with
    | Some h => (Ok h, st)
    | None => (Raise (none_has_no attr), st)
    end.

Definition set_self (f : SIPDBot -> SIPDBot) : M unit :=
  fun st =>
    (Ok tt, {| self := f (self st); trace := trace st;
               next_handle := next_handle st |}).

Definition get_current_date : M string :=
  fun st => (Ok (current_date env (trace st)), st).

Definition get_month_name_call (i : Z) : M string := lift (month_name env i).

Definition get_output_path (output_dir file_name : string) : M string :=
  call (GetOutputPath output_dir file_name) ;;
  ret (output_path env output_dir file_name).

Definition parsed_cookies : M string :=
  fun st => (Ok (cookies_json env (trace st)), st).

(** [json.load(f)]: fails on text that is not JSON, else gives its value. *)
Definition json_load (f : handle) : M string :=
  call (JsonLoad f) ;;
  parsed_cookies.

(** [with open(name, "r", encoding="utf-8") as f: body]: the file is
    closed however the body ends. *)
Definition with_open {A} (name : string) (body : handle -> M A) : M A :=
  f <- create (OpenFile name) ;;
  fun st =>
    let (r, st') := body f st in (r, log (FileClosed f) st').

(** Lines 45-50. *)
Definition _initialize_browser : M unit :=
  playwright <- create SyncPlaywrightStart ;;
  b <- create (ChromiumLaunch playwright) ;;
  set_self (fun s => {| browser := Some b; context := context s; page := page s |}) ;;
  b' <- field browser "new_context" ;;
  c <- create (NewContext b') ;;
  set_self (fun s => {| browser := browser s; context := Some c; page := page s |}) ;;
  c' <- field context "new_page" ;;
  p <- create (NewPage c') ;;
  set_self (fun s => {| browser := browser s; context := context s; page := Some p |}).

(** [if not self.page: self._initialize_browser()]. *)
Definition ensure_page : M unit :=
  fun st =>
    match page (self st) with
    | Some _ => (Ok tt, st)
    | None => _initialize_browser st
    end.

Definition akuntansi_link (p : handle) : Locator :=
  locator_first (page_locator p (has_text "a" "Akuntansi")).

(** Lines 58-69. *)
Definition login_manual : M unit :=
  ensure_page ;;
  p <- field page "goto" ;;
  call (Goto p _URL_LOGIN (Some 120000)) ;;
  p <- field page "bring_to_front" ;;
  call (BringToFront p) ;;
  print "Please fill the login and CAPTCHA form" ;;
  print "Only continue after successfully logged in!" ;;
  call (Input (newline ++ "Press Enter to continue...")) ;;
  p <- field page "locator" ;;
  call (WaitFor (akuntansi_link p) None (Some 120000)).

(** Lines 90-120. *)
Definition login_with_env (username password : string) : M unit :=
  ensure_page ;;
  p <- field page "goto" ;;
  call (Goto p _URL_LOGIN (Some 120000)) ;;
  p <- field page "locator" ;;
  let input_username := page_locator p "#ed_username" in
  call (WaitFor input_username (Some "visible") None) ;;
  call (Focus input_username) ;;
  call (TypeText input_username username) ;;
  p <- field page "locator" ;;
  let input_password := page_locator p "#ed_password" in
  call (WaitFor input_password None None) ;;
  call (TypeText input_password password) ;;
  call (Press input_password "Enter") ;;
  p <- field page "locator" ;;
  let card_account :=
    page_locator p "div.account-select-card:has-text('Bendahara Umum Daerah')" in
  let btn_account :=
    locator_locator card_account "button:has-text('Pilih Akun ini')" in
  call (WaitFor card_account None None) ;;
  call (Click btn_account) ;;
  p <- field page "bring_to_front" ;;
  call (BringToFront p) ;;
  call (Input "Press Enter after successful login...") ;;
  p <- field page "locator" ;;
  call (WaitFor (akuntansi_link p) None (Some 120000)).

(** Lines 136-151. *)
Definition login_with_cookies : M unit :=
  ensure_page ;;
  try_except
    (with_open "cookies.json"
       (fun f =>
          cookies <- json_load f ;;
          c <- field context "add_cookies" ;;
          call (AddCookies c cookies)) ;;
     p <- field page "goto" ;;
     call (Goto p _URL_LOGIN None))
    [ except FileNotFoundError (fun _ => print msg_no_cookie_file);
      except JSONDecodeError (fun _ => print msg_bad_cookie_json);
      except_Exception (fun e => print (msg_cookie_unexpected e)) ].

(** Lines 157-160. *)
Definition close_browser : M unit :=
  (fun st =>
     match context (self st) with
     | Some c => call (ContextClose c) st
     | None => (Ok tt, st)
     end) ;;
  (fun st =>
     match browser (self st) with
     | Some b => call (BrowserClose b) st
     | None => (Ok tt, st)
     end).

Definition filter_inputs (p : handle) : Locator :=
  page_locator p "div.css-j93siq input".

(** Lines 182-184: open the listing page and wait for its title. *)
Definition open_listing : M unit :=
  p <- field page "goto" ;;
  call (Goto p _URL_PENATAUSAHAAN_REALISASI None) ;;
  p <- field page "locator" ;;
  let menu_title := page_locator p (has_text "h1" "Laporan Realisasi") in
  call (WaitFor menu_title None None).

(** Lines 187-191: the SKPD filter, chosen once. *)
Definition select_skpd : M unit :=
  p <- field page "locator" ;;
  let submenu_skpd := locator_first (filter_inputs p) in
  call (WaitFor submenu_skpd None None) ;;
  call (Click submenu_skpd) ;;
  call (TypeText submenu_skpd "Unduh Semua SKPD") ;;
  call (Press submenu_skpd "Enter").

(** Lines 198-202: the month filter. *)
Definition select_bulan (i : Z) : M unit :=
  p <- field page "locator" ;;
  let submenu_bulan := locator_nth (filter_inputs p) 1 in
  call (WaitFor submenu_bulan None (Some 60000)) ;;
  call (Click submenu_bulan) ;;
  name <- get_month_name_call i ;;
  call (TypeText submenu_bulan name) ;;
  call (Press submenu_bulan "Enter").

Definition btn_download (p : handle) : Locator :=
  page_locator p (has_text "button" "Download").

(** Lines 205-211: click inside [expect_download]; leaving the [with]
    block waits for the download to start and yields its handle. *)
Definition start_download : M handle :=
  p <- field page "expect_download" ;;
  p' <- field page "locator" ;;
  call (Click (btn_download p')) ;;
  create (ExpectDownload p 120000).

(** Lines 213-225. *)
Definition save_download (i end_month : Z) (download_file : handle) : M unit :=
  current_date <- get_current_date ;;
  let download_dir := download_dir current_date in
  let download_name := download_name i in
  download_path <- get_output_path download_dir download_name ;;
  call (SaveAs download_file download_path) ;;
  print (msg_success i end_month download_name).

(** Lines 204-230. *)
Definition try_download (i end_month : Z) : M unit :=
  try_except
    (download_file <- start_download ;;
     save_download i end_month download_file)
    [ except PlaywrightTimeoutError
        (fun e => print (msg_failed i end_month e) ;; print msg_retrying) ].

(** Lines 197-230: what one period does inside its own [try]. *)
Definition period_work (i end_month : Z) : M unit :=
  select_bulan i ;;
  try_download i end_month.

(** Lines 194-239: the body of the [for] loop. *)
Definition iteration (end_month i : Z) : M unit :=
  print (msg_downloading i end_month) ;;
  try_except (period_work i end_month)
    [ except IndexError (fun _ => print (msg_invalid i end_month));
      except_Exception
        (fun e => print (msg_unexpected i end_month e) ;; print msg_skipping) ].

(** Lines 193-239. *)
Definition download_loop (start_month end_month : Z) : M unit :=
  for_each (range start_month (end_month + 1)) (iteration end_month).

(** Lines 182-191: everything the loop relies on. *)
Definition prepare : M unit :=
  open_listing ;;
  select_skpd.

(** Lines 181-245. *)
Definition download_realisasi (start_month end_month : Z) : M unit :=
  try_except
    (prepare ;;
     download_loop start_month end_month)
    [ except PlaywrightTimeoutError (fun e => print (msg_page_load e));
      except_Exception (fun e => print (msg_critical e)) ].

End Bot.

(** ** Vocabulary for the properties *)

Definition is_call (ev : Event) : Prop :=
  match ev with Printed _ => False | _ => True end.

(** The lines written to standard output, in order. *)
Definition stdout (tr : list Event) : list string :=
  flat_map (fun ev => match ev with Printed s => [s] | _ => [] end) tr.

(** [yields m st r evs st']: from [st], [m] ends with [r] in [st'], having
    appended [evs] to the trace and left the fields of the instance alone. *)
Definition yields {A} (m : M A) (st : State) (r : result A)
    (evs : list Event) (st' : State) : Prop :=
  m st = (r, st') /\ trace st' = (trace st ++ evs)%list /\ self st' = self st.

(** [emits P m]: whatever the environment does, [m] only adds events that
    satisfy [P], and keeps the fields. *)
Definition emits {A} (P : Event -> Prop) (m : M A) : Prop :=
  forall st, exists r evs st', yields m st r evs st' /\ Forall P evs.

(** The outcome of one period as the specification names it.  The code
    reports it on standard output. *)
Inductive failure : Type :=
| InvalidPeriodError
| DownloadTimeoutError (e : exn)
| UnexpectedError (e : exn).

Inductive DownloadAttemptResult : Type :=
| Success (period : Z) (savedPath : string)
| Failed (period : Z) (reason : failure).

Definition period_of (r : DownloadAttemptResult) : Z :=
  match r with Success i _ | Failed i _ => i end.

(** The lines that close a period, after its progress line. *)
Definition outcome_lines (end_month : Z) (r : DownloadAttemptResult) : list string :=
  match r with
  | Success i _ => [msg_success i end_month (download_name i)]
  | Failed i InvalidPeriodError => [msg_invalid i end_month]
  | Failed i (DownloadTimeoutError e) => [msg_failed i end_month e; msg_retrying]
  | Failed i (UnexpectedError e) => [msg_unexpected i end_month e; msg_skipping]
  end.

(** Everything a period prints. *)
Definition report (end_month : Z) (r : DownloadAttemptResult) : list string :=
  msg_downloading (period_of r) end_month :: outcome_lines end_month r.

(** The (run date, period) to path mapping of lines 213-218. *)
Definition output_location (env : Env) (date : string) (i : Z) : string :=
  output_path env (download_dir date) (download_name i).

Definition month_filter (p : handle) : Locator := locator_nth (filter_inputs p) 1.

(** The first thing a period does to the browser. *)
Definition month_filter_wait (p : handle) : Action :=
  WaitFor (month_filter p) None (Some 60000).

Definition is_outcome_of (a : Action) (ev : Event) : Prop :=
  ev = Called a \/ exists e, ev = Raised a e.

(** Period [j] is attempted in [evs]: its progress line is printed and the
    wait on the month filter follows at once. *)
Definition attempted (p : handle) (end_month j : Z) (evs : list Event) : Prop :=
  exists pre ev post,
    evs = (pre ++ Printed (msg_downloading j end_month) :: ev :: post)%list /\
    is_outcome_of (month_filter_wait p) ev.

(** The state in which period [i] starts, in a run of the loop from [st]. *)
Definition state_before (env : Env) (start_month end_month i : Z) (st : State) : State :=
  snd (for_each (range start_month i) (iteration env end_month) st).

(** A saved file is the last call of a successful period, and its path is
    the output location of the period at a date the calendar gave. *)
Definition saved_where (env : Env) (r : DownloadAttemptResult) (acts : list Event) : Prop :=
  match r with
  | Success i path =>
      exists acts' d tr,
        acts = (acts' ++ [Called (SaveAs d path)])%list /\
        path = output_location env (current_date env tr) i
  | Failed _ _ => True
  end.

(** The three ways the work of a period can end: saved and reported, a
    timeout caught by the inner handler, or an exception still in flight. *)
Definition ends_period (env : Env) (m : M unit) (i end_month : Z)
    (st : State) (acts : list Event) (st' : State) : Prop :=
  (exists path,
      saved_where env (Success i path) acts /\
      yields m st (Ok tt)
        (acts ++ [Printed (msg_success i end_month (download_name i))]) st') \/
  (exists x,
      yields m st (Ok tt)
        (acts ++ [Printed (msg_failed i end_month x); Printed msg_retrying]) st') \/
  (exists x, yields m st (Raise x) acts st').

(** [starts_with Q m st]: the first event [m] adds from [st] satisfies [Q]. *)
Definition starts_with {A} (Q : Event -> Prop) (m : M A) (st : State) : Prop :=
  exists r ev rest st', yields m st r (ev :: rest) st' /\ Q ev.

Definition any_event (ev : Event) : Prop := True.

(** Modelled from the spec: [get_month_name] is defined in [src/utils.py],
    which is not among the sources.  The specification says that a period has
    a display name exactly when it lies in [1, 12] and that any other period
    is an invalid-period error; the source catches it as [IndexError].  The
    display names themselves are a parameter. *)
Definition get_month_name (label : Z -> string) (i : Z) : result string :=
  if ((1 <=? i)%Z && (i <=? 12)%Z)%bool then Ok (label i)
  else Raise (mkExn IndexError "list index out of range").

Module Scenario.

Definition bulan : list string :=
  [ "Januari"; "Februari"; "Maret"; "April"; "Mei"; "Juni"; "Juli";
    "Agustus"; "September"; "Oktober"; "November"; "Desember" ].

Definition label (i : Z) : string := nth (Z.to_nat (i - 1)) bulan "".

Definition timed_out : exn :=
  mkExn PlaywrightTimeoutError "Timeout 120000ms exceeded.".

Definition target_closed : exn :=
  mkExn OtherException "Target page, context or browser has been closed".

Definition bad_json : exn :=
  mkExn JSONDecodeError "Expecting value: line 1 column 1 (char 0)".

(** How many times the run has already waited for a download to start. *)
Definition downloads_awaited (tr : list Event) : nat :=
  List.length
    (filter (fun ev =>
               match ev with
               | Created (ExpectDownload _ _) _ | Raised (ExpectDownload _ _) _ => true
               | _ => false
               end) tr).

Definition world (o : list Event -> Action -> option exn) : Env :=
  {| oracle := o;
     current_date := fun _ => "2024-12-31";
     cookies_json := fun _ => "[]";
     month_name := get_month_name label;
     output_path := fun d n => "output/" ++ d ++ "/" ++ n |}.

(** Every call succeeds. *)
Definition calm : Env := world (fun _ _ => None).

(** The second download of the run never starts. *)
Definition second_download_stalls : Env :=
  world (fun tr a =>
           match a with
           | ExpectDownload _ _ =>
               if Nat.eqb (downloads_awaited tr) 1 then Some timed_out else None
           | _ => None
           end).

(** The listing page does not load. *)
Definition listing_unreachable : Env :=
  world (fun _ a =>
           match a with
           | Goto _ url None =>
               if String.eqb url _URL_PENATAUSAHAAN_REALISASI then Some timed_out else None
           | _ => None
           end).

(** The month filter never becomes interactive. *)
Definition month_filter_stuck : Env :=
  world (fun _ a =>
           match a with
           | WaitFor (locator_nth _ _) _ _ => Some timed_out
           | _ => None
           end).

(** [cookies.json] exists but does not hold JSON. *)
Definition cookies_malformed : Env :=
  world (fun _ a => match a with JsonLoad _ => Some bad_json | _ => None end).

(** Closing the context fails. *)
Definition context_close_fails : Env :=
  world (fun _ a => match a with ContextClose _ => Some target_closed | _ => None end).

(** A bot after a manual login in which every call succeeded. *)
Definition logged_in : State := snd (login_manual calm initial_state).

(** The same bot, its trace read from now on. *)
Definition ready : State :=
  {| self := self logged_in; trace := []; next_handle := next_handle logged_in |}.

End Scenario.

(** What follows the last line of period [i]: nothing when it is the last
    period, otherwise the progress line of period [i + 1] and its wait on the
    month filter. *)
Definition next_period_follows (p : handle) (end_month i : Z) (later : list Event) : Prop :=
  (i = end_month /\ later = []) \/
  (i < end_month /\
   exists ev rest,
     later = Printed (msg_downloading (i + 1) end_month) :: ev :: rest /\
     is_outcome_of (month_filter_wait p) ev).

(** The locator an event acts on, if any. *)
Definition acts_on (ev : Event) : option Locator :=
  match ev with
  | Called a | Raised a _ | Created a _ =>
      match a with
      | WaitFor l _ _ | Focus l | Click l | TypeText l _ | Press l _ => Some l
      | _ => None
      end
  | _ => None
  end.

Definition is_skpd_filter (l : Locator) : bool :=
  match l with
  | locator_first (page_locator _ sel) => String.eqb sel "div.css-j93siq input"
  | _ => false
  end.

Definition is_month_filter (l : Locator) : bool :=
  match l with
  | locator_nth (page_locator _ sel) 1 => String.eqb sel "div.css-j93siq input"
  | _ => false
  end.

Definition touches (which : Locator -> bool) (ev : Event) : bool :=
  match acts_on ev with
  | Some l => which l
  | None => false
  end.

(** The paths files were saved to, in order. *)
Definition saved_paths (tr : list Event) : list string :=
  flat_map (fun ev => match ev with Called (SaveAs _ path) => [path] | _ => [] end) tr.

(** Neither the shared filter nor the month filter is used. *)
Definition no_filter_interaction (evs : list Event) : bool :=
  forallb (fun ev => negb (touches is_skpd_filter ev) && negb (touches is_month_filter ev)) evs.

(** The two calls of lines 182-184 that open the listing on page [p]. *)
Definition listing_opening (p : handle) : list Event :=
  [ Called (Goto p _URL_PENATAUSAHAAN_REALISASI None);
    Called (WaitFor (page_locator p (has_text "h1" "Laporan Realisasi")) None None) ].

(** The four calls of lines 188-191 on the shared filter of page [p]. *)
Definition skpd_selection (p : handle) : list Event :=
  let submenu_skpd := locator_first (filter_inputs p) in
  [ Called (WaitFor submenu_skpd None None);
    Called (Click submenu_skpd);
    Called (TypeText submenu_skpd "Unduh Semua SKPD");
    Called (Press submenu_skpd "Enter") ].

Definition context_close_attempted (c : handle) (evs : list Event) : bool :=
  existsb (fun ev =>
             match ev with
             | Called (ContextClose c') | Raised (ContextClose c') _ => Nat.eqb c c'
             | _ => false
             end) evs.

Definition browser_close_attempted (b : handle) (evs : list Event) : bool :=
  existsb (fun ev =>
             match ev with
             | Called (BrowserClose b') | Raised (BrowserClose b') _ => Nat.eqb b b'
             | _ => false
             end) evs.

Definition is_release (a : Action) : bool :=
  match a with
  | ContextClose _ | BrowserClose _ => true
  | _ => false
  end.

(** The calls [close_browser] makes on an instance whose releases succeed. *)
Definition release_calls (s : SIPDBot) : list Event :=
  (match context s with Some c => [Called (ContextClose c)] | None => [] end
   ++ match browser s with Some b => [Called (BrowserClose b)] | None => [] end)%list.

(** Every request for an output path and every save names a directory that
    depends on a calendar date only and a file that depends on a period of
    the range only. *)
Definition naming_ok (env : Env) (start_month end_month : Z) (ev : Event) : Prop :=
  match ev with
  | Called (SaveAs _ path) | Raised (SaveAs _ path) _ =>
      exists i tr,
        start_month <= i <= end_month /\
        path = output_location env (current_date env tr) i
  | Called (GetOutputPath dir name) | Raised (GetOutputPath dir name) _ =>
      exists i tr,
        start_month <= i <= end_month /\
        dir = download_dir (current_date env tr) /\ name = download_name i
  | _ => True
  end.

(** [emits_at s P m]: run on an instance whose fields are [s], [m] only adds
    events that satisfy [P] and keeps the fields. *)
Definition emits_at (s : SIPDBot) {A} (P : Event -> Prop) (m : M A) : Prop :=
  forall st, self st = s -> exists r evs st', yields m st r evs st' /\ Forall P evs.

Fixpoint root_page (l : Locator) : handle :=
  match l with
  | page_locator p _ => p
  | locator_first l' | locator_nth l' _ | locator_locator l' _ => root_page l'
  end.

Definition action_of (ev : Event) : option Action :=
  match ev with
  | Called a | Created a _ | Raised a _ => Some a
  | _ => None
  end.

(** The calls of [_initialize_browser]. *)
Definition opens_browser (a : Action) : bool :=
  match a with
  | SyncPlaywrightStart | ChromiumLaunch _ | NewContext _ | NewPage _ => true
  | _ => false
  end.

(** The page an action is sent to. *)
Definition page_of (a : Action) : option handle :=
  match a with
  | Goto p _ _ | BringToFront p | ExpectDownload p _ => Some p
  | WaitFor l _ _ | Focus l | Click l | TypeText l _ | Press l _ => Some (root_page l)
  | _ => None
  end.

(** [reuses p c ev]: [ev] creates no browser, context or page, and whatever
    it sends to a page or a context goes to [p] and [c]. *)
Definition reuses (p : handle) (c : option handle) (ev : Event) : bool :=
  match action_of ev with
  | None => true
  | Some a =>
      negb (opens_browser a)
      && match page_of a with Some q => Nat.eqb q p | None => true end
      && match a with
         | AddCookies c' _ =>
             match c with Some c0 => Nat.eqb c' c0 | None => false end
         | _ => true
         end
  end.

Definition stale (p c : handle) (ev : Event) : Prop := reuses p (Some c) ev = true.

(** [m], run from [st], creates nothing new and talks to page [p] and
    context [c] only. *)
Definition reuses_session (p c : handle) (m : M unit) (st : State) : Prop :=
  exists r evs st', yields m st r evs st' /\ Forall (stale p c) evs.

(** ** Vocabulary for the session and the loop, continued *)

(** The four objects [_initialize_browser] creates when the next free
    handle is [n], in order. *)
Definition initialization (n : handle) : list Event :=
  [ Created SyncPlaywrightStart n;
    Created (ChromiumLaunch n) (S n);
    Created (NewContext (S n)) (S (S n));
    Created (NewPage (S (S n))) (S (S (S n))) ].

(** The fields after a successful [_initialize_browser]. *)
Definition opened_session (n : handle) : SIPDBot :=
  {| browser := Some (S n); context := Some (S (S n)); page := Some (S (S (S n))) |}.

(** [fails_fast steps r evs]: either every step was done and the result is
    normal, or the steps were done up to a call that raised, that exception
    is the result, and nothing was done after it. *)
Definition fails_fast (steps : list Event) (r : result unit) (evs : list Event) : Prop :=
  (r = Ok tt /\ evs = steps) \/
  (exists e pre a post,
      r = Raise e /\
      steps = (pre ++ Called a :: post)%list /\
      evs = (pre ++ [Raised a e])%list).

Definition runs_fail_fast (s : SIPDBot) (steps : list Event) (m : M unit) : Prop :=
  forall st, self st = s ->
    exists r evs st', yields m st r evs st' /\ fails_fast steps r evs.

(** Lines 61-69 on page [p], when nothing goes wrong. *)
Definition login_manual_steps (p : handle) : list Event :=
  [ Called (Goto p _URL_LOGIN (Some 120000));
    Called (BringToFront p);
    Printed "Please fill the login and CAPTCHA form";
    Printed "Only continue after successfully logged in!";
    Called (Input (newline ++ "Press Enter to continue..."));
    Called (WaitFor (akuntansi_link p) None (Some 120000)) ].

(** Lines 94-120 on page [p], when nothing goes wrong. *)
Definition login_with_env_steps (p : handle) (username password : string) : list Event :=
  let input_username := page_locator p "#ed_username" in
  let input_password := page_locator p "#ed_password" in
  let card_account :=
    page_locator p "div.account-select-card:has-text('Bendahara Umum Daerah')" in
  [ Called (Goto p _URL_LOGIN (Some 120000));
    Called (WaitFor input_username (Some "visible") None);
    Called (Focus input_username);
    Called (TypeText input_username username);
    Called (WaitFor input_password None None);
    Called (TypeText input_password password);
    Called (Press input_password "Enter");
    Called (WaitFor card_account None None);
    Called (Click (locator_locator card_account "button:has-text('Pilih Akun ini')"));
    Called (BringToFront p);
    Called (Input "Press Enter after successful login...");
    Called (WaitFor (akuntansi_link p) None (Some 120000)) ].

(** The line [login_with_cookies] prints for an exception, chosen by its
    class alone (lines 146-151). *)
Definition cookie_error_line (e : exn) : string :=
  if exn_class_eqb (exn_cls e) FileNotFoundError then msg_no_cookie_file
  else if exn_class_eqb (exn_cls e) JSONDecodeError then msg_bad_cookie_json
  else msg_cookie_unexpected e.

(** Everything lines 139-151 can leave on the trace, on page [p] and context
    [c]: the full sequence, or the sequence cut at the call that raised,
    followed by the closing of the file if it was open and by one line. *)
Definition cookie_login_outcome (env : Env) (st : State) (p c : handle)
    (evs : list Event) : Prop :=
  let f := next_handle st in
  let opened := Created (OpenFile "cookies.json") f in
  let loaded := Called (JsonLoad f) in
  let cookies := cookies_json env (trace st ++ [opened; loaded]) in
  let added := Called (AddCookies c cookies) in
  evs = [opened; loaded; added; FileClosed f; Called (Goto p _URL_LOGIN None)] \/
  exists e,
    evs = [Raised (OpenFile "cookies.json") e; Printed (cookie_error_line e)] \/
    evs = [opened; Raised (JsonLoad f) e; FileClosed f; Printed (cookie_error_line e)] \/
    evs = [opened; loaded; Raised (AddCookies c cookies) e; FileClosed f;
           Printed (cookie_error_line e)] \/
    evs = [opened; loaded; added; FileClosed f; Raised (Goto p _URL_LOGIN None) e;
           Printed (cookie_error_line e)].

(** The lines that close a period, by the way its work ended (lines 232-239). *)
Definition period_closing (i end_month : Z) (r : result unit) : list string :=
  match r with
  | Ok _ => []
  | Raise x =>
      if exn_class_eqb (exn_cls x) IndexError then [msg_invalid i end_month]
      else [msg_unexpected i end_month x; msg_skipping]
  end.

(** The lines printed for an exception raised inside the inner [try]
    (lines 204-239). *)
Definition download_failure_lines (i end_month : Z) (x : exn) : list string :=
  if exn_class_eqb (exn_cls x) PlaywrightTimeoutError
  then [msg_failed i end_month x; msg_retrying]
  else period_closing i end_month (Raise x).

(** The line printed when lines 182-191 raise (lines 241-245). *)
Definition abort_line (x : exn) : string :=
  if exn_class_eqb (exn_cls x) PlaywrightTimeoutError then msg_page_load x
  else msg_critical x.

Module More.

(** The browser starts but refuses the first context asked of it. *)
Definition context_refused : Env :=
  Scenario.world
    (fun tr a =>
       match a with
       | NewContext _ =>
           if existsb (fun ev => match ev with Raised (NewContext _) _ => true | _ => false end) tr
           then None else Some Scenario.target_closed
       | _ => None
       end).

(** [cookies.json] does not exist. *)
Definition cookies_missing : Env :=
  Scenario.world
    (fun _ a =>
       match a with
       | OpenFile _ => Some (mkExn FileNotFoundError "[Errno 2] No such file or directory: 'cookies.json'")
       | _ => None
       end).

(** Saving a download to disk times out. *)
Definition save_stalls : Env :=
  Scenario.world
    (fun _ a => match a with SaveAs _ _ => Some Scenario.timed_out | _ => None end).

(** The browser cannot be launched. *)
Definition launch_fails : Env :=
  Scenario.world
    (fun _ a => match a with ChromiumLaunch _ => Some Scenario.target_closed | _ => None end).

(** The shared filter never becomes ready. *)
Definition shared_filter_stuck : Env :=
  Scenario.world
    (fun _ a =>
       match a with
       | WaitFor (locator_first _) _ _ => Some Scenario.timed_out
       | _ => None
       end).

End More.

(** What one period leaves on the trace when nothing goes wrong: on page
    [p], with download handle [d], at date [date], for a month called
    [name]. *)
Definition period_events (env : Env) (p d : handle) (date name : string)
    (end_month i : Z) : list Event :=
  [ Printed (msg_downloading i end_month);
    Called (month_filter_wait p);
    Called (Click (month_filter p));
    Called (TypeText (month_filter p) name);
    Called (Press (month_filter p) "Enter");
    Called (Click (btn_download p));
    Created (ExpectDownload p 120000) d;
    Called (GetOutputPath (download_dir date) (download_name i));
    Called (SaveAs d (output_location env date i));
    Printed (msg_success i end_month (download_name i)) ].

(** What is left on the trace once the download of period [i] has started
    with handle [d] and the calendar says [date] (lines 213-239): the output
    path is asked for and the file saved under the directory of that date
    and the name of that period, then the success line; or the first of the
    two calls that raises, then the lines for its exception. *)
Definition saving_outcome (env : Env) (end_month i : Z) (d : handle)
    (date : string) (saving : list Event) : Prop :=
  let dir := download_dir date in
  let name := download_name i in
  let path := output_path env dir name in
  saving = [ Called (GetOutputPath dir name);
             Called (SaveAs d path);
             Printed (msg_success i end_month name) ] \/
  exists x,
    saving = Raised (GetOutputPath dir name) x
               :: map Printed (download_failure_lines i end_month x) \/
    saving = Called (GetOutputPath dir name)
               :: Raised (SaveAs d path) x
               :: map Printed (download_failure_lines i end_month x).

(** The line of lines 241-245, if the shared filter raised. *)
Definition abort_lines (r : result unit) : list string :=
  match r with
  | Ok _ => []
  | Raise x => [abort_line x]
  end.

(** ** Ranges *)

Lemma range_nil (a b : Z) : b <= a -> range a b = [].
Proof.
  intros H. unfold range.
  replace (Z.to_nat (b - a)) with 0%nat by lia. reflexivity.
Qed.

Lemma range_cons (a b : Z) : a < b -> range a b = a :: range (a + 1) b.
Proof.
  intros H. unfold range.
  replace (Z.to_nat (b - a)) with (S (Z.to_nat (b - (a + 1)))) by lia.
  cbn [seq map]. f_equal; [lia|].
  rewrite <- seq_shift, map_map.
  apply map_ext. intros k. lia.
Qed.

Lemma range_app (a m b : Z) :
  a <= m <= b -> range a b = (range a m ++ range m b)%list.
Proof.
  intros H.
  remember (Z.to_nat (m - a)) as n eqn:En.
  revert a En H. induction n as [|n IH]; intros a En H.
  - assert (a = m) by lia. subst a.
    rewrite (range_nil m m) by lia. reflexivity.
  - rewrite (range_cons a b) by lia. rewrite (range_cons a m) by lia.
    cbn [app]. f_equal. apply IH; lia.
Qed.

Lemma range_split (a i b : Z) :
  a <= i < b -> range a b = (range a i ++ i :: range (i + 1) b)%list.
Proof.
  intros H. rewrite (range_app a i b) by lia.
  rewrite (range_cons i b) by lia. reflexivity.
Qed.

Lemma in_range (a b j : Z) : In j (range a b) <-> a <= j < b.
Proof.
  unfold range. rewrite in_map_iff. split.
  - intros (k & <- & Hk). apply in_seq in Hk. lia.
  - intros H. exists (Z.to_nat (j - a)). split; [lia|].
    apply in_seq. lia.
Qed.

Lemma length_range (a b : Z) : a <= b -> Z.of_nat (List.length (range a b)) = b - a.
Proof.
  intros H. unfold range. rewrite length_map, length_seq. lia.
Qed.

(** ** What a run leaves behind *)

Lemma stdout_app (t1 t2 : list Event) :
  stdout (t1 ++ t2) = (stdout t1 ++ stdout t2)%list.
Proof. apply flat_map_app. Qed.

Lemma stdout_calls (acts : list Event) : Forall is_call acts -> stdout acts = [].
Proof.
  induction 1 as [|ev acts Hev _ IH]; [reflexivity|].
  destruct ev; cbn in *; try contradiction; exact IH.
Qed.

Lemma stdout_printed (ls : list string) : stdout (map Printed ls) = ls.
Proof.
  unfold stdout. induction ls as [|l ls IH]; cbn; [reflexivity|].
  f_equal. exact IH.
Qed.

Section Runs.

Variable env : Env.

Lemma yields_bind_ok {A B} (m : M A) (k : A -> M B) st a evs1 st1 r evs2 st2 :
  yields m st (Ok a) evs1 st1 -> yields (k a) st1 r evs2 st2 ->
  yields (bind m k) st r (evs1 ++ evs2) st2.
Proof.
  intros (Hm & Ht1 & Hs1) (Hk & Ht2 & Hs2). unfold yields, bind.
  rewrite Hm, Hk, Ht2, Ht1, Hs2, Hs1, app_assoc. auto.
Qed.

Lemma yields_bind_raise {A B} (m : M A) (k : A -> M B) st e evs st1 :
  yields m st (Raise e) evs st1 -> yields (bind m k) st (Raise e) evs st1.
Proof.
  intros (Hm & Ht1 & Hs1). unfold yields, bind. rewrite Hm. auto.
Qed.

Lemma yields_try_ok {A} (m : M A) hs st a evs st1 :
  yields m st (Ok a) evs st1 -> yields (try_except m hs) st (Ok a) evs st1.
Proof.
  intros (Hm & Ht1 & Hs1). unfold yields, try_except. rewrite Hm. auto.
Qed.

Lemma yields_try_raise {A} (m : M A) hs st e evs1 st1 r evs2 st2 :
  yields m st (Raise e) evs1 st1 -> yields (dispatch hs e) st1 r evs2 st2 ->
  yields (try_except m hs) st r (evs1 ++ evs2) st2.
Proof.
  intros (Hm & Ht1 & Hs1) (Hk & Ht2 & Hs2). unfold yields, try_except.
  rewrite Hm, Hk, Ht2, Ht1, Hs2, Hs1, app_assoc. auto.
Qed.

Lemma yields_print (line : string) st :
  yields (print line) st (Ok tt) [Printed line] (log (Printed line) st).
Proof. repeat split. Qed.

Lemma yields_field get attr st h :
  get (self st) = Some h -> yields (field get attr) st (Ok h) [] st.
Proof.
  intros H. unfold yields, field. rewrite H, app_nil_r. auto.
Qed.

Lemma yields_call_ok (a : Action) st :
  oracle env (trace st) a = None ->
  yields (call env a) st (Ok tt) [Called a] (log (Called a) st).
Proof. intros H. unfold yields, call. rewrite H. auto. Qed.

Lemma yields_call_raise (a : Action) st e :
  oracle env (trace st) a = Some e ->
  yields (call env a) st (Raise e) [Raised a e] (log (Raised a e) st).
Proof. intros H. unfold yields, call. rewrite H. auto. Qed.

Lemma emits_weaken {A} (P Q : Event -> Prop) (m : M A) :
  (forall ev, P ev -> Q ev) -> emits P m -> emits Q m.
Proof.
  intros HPQ Hm st. destruct (Hm st) as (r & evs & st' & Hy & Hall).
  exists r, evs, st'. split; [exact Hy|].
  eapply Forall_impl; eauto.
Qed.

Lemma emits_ret {A} P (a : A) : emits P (ret a).
Proof.
  intros st. exists (Ok a), [], st. unfold yields, ret.
  rewrite app_nil_r. auto.
Qed.

Lemma emits_lift {A} P (r : result A) : emits P (lift r).
Proof.
  intros st. exists r, [], st. unfold yields, lift.
  rewrite app_nil_r. auto.
Qed.

Lemma emits_field P get attr : emits P (field get attr).
Proof.
  intros st. unfold yields, field.
  destruct (get (self st)) as [h|];
    [exists (Ok h), [], st | exists (Raise (none_has_no attr)), [], st];
    rewrite app_nil_r; auto.
Qed.

Lemma emits_get_current_date P : emits P (get_current_date env).
Proof.
  intros st. exists (Ok (current_date env (trace st))), [], st.
  unfold yields, get_current_date. rewrite app_nil_r. auto.
Qed.

Lemma emits_parsed_cookies P : emits P (parsed_cookies env).
Proof.
  intros st. exists (Ok (cookies_json env (trace st))), [], st.
  unfold yields, parsed_cookies. rewrite app_nil_r. auto.
Qed.

Lemma emits_print (P : Event -> Prop) line :
  P (Printed line) -> emits P (print line).
Proof.
  intros H st. exists (Ok tt), [Printed line], (log (Printed line) st).
  split; [apply yields_print | auto].
Qed.

Lemma emits_call (P : Event -> Prop) a :
  P (Called a) -> (forall e, P (Raised a e)) -> emits P (call env a).
Proof.
  intros Hc Hr st. destruct (oracle env (trace st) a) as [e|] eqn:Ho.
  - exists (Raise e), [Raised a e], (log (Raised a e) st).
    split; [apply yields_call_raise; exact Ho | auto].
  - exists (Ok tt), [Called a], (log (Called a) st).
    split; [apply yields_call_ok; exact Ho | auto].
Qed.

Lemma emits_create (P : Event -> Prop) a :
  (forall h, P (Created a h)) -> (forall e, P (Raised a e)) ->
  emits P (create env a).
Proof.
  intros Hc Hr st. unfold yields, create.
  destruct (oracle env (trace st) a) as [e|].
  - exists (Raise e), [Raised a e]. eexists. repeat split. auto.
  - exists (Ok (next_handle st)), [Created a (next_handle st)].
    eexists. repeat split. auto.
Qed.

Lemma emits_bind {A B} P (m : M A) (k : A -> M B) :
  emits P m -> (forall a, emits P (k a)) -> emits P (bind m k).
Proof.
  intros Hm Hk st. destruct (Hm st) as ([a|e] & evs1 & st1 & Hy1 & H1).
  - destruct (Hk a st1) as (r & evs2 & st2 & Hy2 & H2).
    exists r, (evs1 ++ evs2)%list, st2. split.
    + eapply yields_bind_ok; eauto.
    + apply Forall_app; auto.
  - exists (Raise e), evs1, st1. split; [|exact H1].
    apply yields_bind_raise; exact Hy1.
Qed.

Lemma emits_dispatch {A} P (hs : list (handler A)) e :
  Forall (fun h => forall x, emits P (on_exn h x)) hs -> emits P (dispatch hs e).
Proof.
  induction 1 as [|h hs Hh _ IH]; cbn.
  - intros st. exists (Raise e), [], st. unfold yields, raise.
    rewrite app_nil_r. auto.
  - destruct (catches h e); [apply Hh | exact IH].
Qed.

Lemma emits_try_except {A} P (m : M A) hs :
  emits P m -> Forall (fun h => forall x, emits P (on_exn h x)) hs ->
  emits P (try_except m hs).
Proof.
  intros Hm Hhs st. destruct (Hm st) as ([a|e] & evs1 & st1 & Hy1 & H1).
  - exists (Ok a), evs1, st1. split; [|exact H1].
    apply yields_try_ok; exact Hy1.
  - destruct (emits_dispatch P hs e Hhs st1) as (r & evs2 & st2 & Hy2 & H2).
    exists r, (evs1 ++ evs2)%list, st2. split.
    + eapply yields_try_raise; eauto.
    + apply Forall_app; auto.
Qed.

Lemma emits_for_each {A} P (xs : list A) (body : A -> M unit) :
  (forall x, In x xs -> emits P (body x)) -> emits P (for_each xs body).
Proof.
  induction xs as [|x xs IH]; intros H; cbn [for_each].
  - apply emits_ret.
  - apply emits_bind; [apply H; left; reflexivity|].
    intros _. apply IH. intros y Hy. apply H. right; exact Hy.
Qed.

End Runs.

Ltac emits_step :=
  lazymatch goal with
  | |- emits _ (ret _) => apply emits_ret
  | |- emits _ (lift _) => apply emits_lift
  | |- emits _ (field _ _) => apply emits_field
  | |- emits _ (get_current_date _) => apply emits_get_current_date
  | |- emits _ (parsed_cookies _) => apply emits_parsed_cookies
  | |- emits _ (print _) => apply emits_print
  | |- emits _ (call _ _) => apply emits_call
  | |- emits _ (create _ _) => apply emits_create
  | |- emits _ (bind _ _) => apply emits_bind
  | |- emits _ (try_except _ _) => apply emits_try_except
  | |- emits _ (on_exn _ _) => cbn [on_exn except except_Exception]
  | |- Forall _ [] => apply Forall_nil
  | |- Forall _ (_ :: _) => apply Forall_cons
  | |- forall _, _ => intro
  end.

Ltac emits_tac := repeat emits_step.

(** ** The download loop *)

Section Download.

Variable env : Env.

Lemma select_bulan_quiet (i : Z) : emits is_call (select_bulan env i).
Proof.
  unfold select_bulan, get_month_name_call. emits_tac; exact I.
Qed.

Lemma start_download_quiet : emits is_call (start_download env).
Proof. unfold start_download. emits_tac; exact I. Qed.

(** A saved download either goes all the way to its success line, or raises
    before printing anything. *)
Lemma save_download_runs (i end_month : Z) (d : handle) st :
  exists acts st',
    Forall is_call acts /\
    ((exists acts' tr,
        acts = (acts' ++ [Called (SaveAs d (output_location env (current_date env tr) i))])%list /\
        yields (save_download env i end_month d) st (Ok tt)
          (acts ++ [Printed (msg_success i end_month (download_name i))]) st') \/
     (exists x, yields (save_download env i end_month d) st (Raise x) acts st')).
Proof.
  unfold save_download, get_output_path, get_current_date, yields, bind, ret, call, print.
  cbn.
  destruct (oracle env (trace st) _) as [x|] eqn:H1; cbn.
  - do 2 eexists. split; cycle 1.
    + right; exists x; repeat split.
    + repeat constructor.
  - destruct (oracle env (trace st ++ _) _) as [x|] eqn:H2; cbn.
    + do 2 eexists. split; cycle 1.
      * right; exists x; split; [reflexivity|split]; [|reflexivity].
        cbn. rewrite <- app_assoc. reflexivity.
      * repeat constructor.
    + do 2 eexists. split; cycle 1.
      * left; eexists [_], (trace st).
        split; [reflexivity|]. split; [reflexivity|]. split; [|reflexivity].
        cbn. rewrite <- !app_assoc. reflexivity.
      * repeat constructor.
Qed.

Lemma yields_print2 (l1 l2 : string) st :
  yields (print l1 ;; print l2) st (Ok tt) [Printed l1; Printed l2]
    (log (Printed l2) (log (Printed l1) st)).
Proof.
  unfold yields, bind, print. cbn. rewrite <- app_assoc. auto.
Qed.

Lemma timeout_handler_runs (body : M unit) (i end_month : Z) st x acts st1 :
  yields body st (Raise x) acts st1 ->
  exists st',
    ends_period env
      (try_except body
         [ except PlaywrightTimeoutError
             (fun e => print (msg_failed i end_month e) ;; print msg_retrying) ])
      i end_month st acts st'.
Proof.
  intros Hb.
  destruct (exn_class_eqb (exn_cls x) PlaywrightTimeoutError) eqn:Hc.
  - eexists. right; left. exists x.
    eapply yields_try_raise; [exact Hb|].
    cbn [dispatch catches on_exn except]. rewrite Hc. apply yields_print2.
  - exists st1. right; right. exists x.
    rewrite <- (app_nil_r acts).
    eapply yields_try_raise; [exact Hb|].
    cbn [dispatch catches on_exn except]. rewrite Hc.
    unfold yields, raise. rewrite app_nil_r. auto.
Qed.

Lemma try_download_runs (i end_month : Z) st :
  exists acts st',
    Forall is_call acts /\
    ends_period env (try_download env i end_month) i end_month st acts st'.
Proof.
  unfold try_download.
  destruct (start_download_quiet st) as ([d|x] & evs1 & st1 & Hy1 & Hq1).
  - destruct (save_download_runs i end_month d st1)
      as (acts2 & st2 & Hq2 & [(acts' & tr & Ha & Hy2) | (x & Hy2)]).
    + exists (evs1 ++ acts2)%list, st2. split; [apply Forall_app; auto|].
      left. eexists. split.
      * exists (evs1 ++ acts')%list, d, tr. rewrite Ha, app_assoc. auto.
      * apply yields_try_ok. rewrite <- app_assoc.
        eapply yields_bind_ok; eauto.
    + assert (Hb : yields (download_file <- start_download env ;;
                           save_download env i end_month download_file)
                     st (Raise x) (evs1 ++ acts2) st2)
        by (eapply yields_bind_ok; eauto).
      destruct (timeout_handler_runs _ i end_month _ _ _ _ Hb) as (st' & H).
      exists (evs1 ++ acts2)%list, st'. split; [apply Forall_app; auto | exact H].
  - assert (Hb : yields (download_file <- start_download env ;;
                         save_download env i end_month download_file)
                   st (Raise x) evs1 st1)
      by (apply yields_bind_raise; exact Hy1).
    destruct (timeout_handler_runs _ i end_month _ _ _ _ Hb) as (st' & H).
    exists evs1, st'. split; [exact Hq1 | exact H].
Qed.

Lemma period_work_runs (i end_month : Z) st :
  exists acts st',
    Forall is_call acts /\
    ends_period env (period_work env i end_month) i end_month st acts st'.
Proof.
  unfold period_work.
  destruct (select_bulan_quiet i st) as ([[]|x] & evs1 & st1 & Hy1 & Hq1).
  - destruct (try_download_runs i end_month st1)
      as (acts2 & st2 & Hq2 & [(path & Hs & Hy2) | [(x & Hy2) | (x & Hy2)]]);
      exists (evs1 ++ acts2)%list, st2; (split; [apply Forall_app; auto|]).
    + left. exists path. split.
      * destruct Hs as (acts' & d & tr & Ha & Hp).
        exists (evs1 ++ acts')%list, d, tr. rewrite Ha, app_assoc. auto.
      * rewrite <- app_assoc. eapply yields_bind_ok; eauto.
    + right; left. exists x. rewrite <- app_assoc. eapply yields_bind_ok; eauto.
    + right; right. exists x. eapply yields_bind_ok; eauto.
  - exists evs1, st1. split; [exact Hq1|].
    right; right. exists x. apply yields_bind_raise. exact Hy1.
Qed.

(** One turn of the loop always ends normally, and what it leaves on the
    trace is its progress line, the calls it made, and the lines of exactly
    one outcome for its own period. *)
Lemma iteration_runs (end_month i : Z) st :
  exists r acts st',
    yields (iteration env end_month i) st (Ok tt)
      (Printed (msg_downloading i end_month)
         :: acts ++ map Printed (outcome_lines end_month r)) st' /\
    Forall is_call acts /\ period_of r = i /\ saved_where env r acts.
Proof.
  unfold iteration.
  destruct (period_work_runs i end_month (log (Printed (msg_downloading i end_month)) st))
    as (acts & st1 & Hq & [(path & Hs & Hy) | [(x & Hy) | (x & Hy)]]).
  - exists (Success i path), acts, st1.
    refine (conj _ (conj Hq (conj eq_refl Hs))).
    change (Printed (msg_downloading i end_month) :: ?l)
      with ([Printed (msg_downloading i end_month)] ++ l)%list.
    eapply yields_bind_ok; [apply yields_print|].
    apply yields_try_ok. exact Hy.
  - exists (Failed i (DownloadTimeoutError x)), acts, st1.
    refine (conj _ (conj Hq (conj eq_refl I))).
    change (Printed (msg_downloading i end_month) :: ?l)
      with ([Printed (msg_downloading i end_month)] ++ l)%list.
    eapply yields_bind_ok; [apply yields_print|].
    apply yields_try_ok. exact Hy.
  - destruct (exn_class_eqb (exn_cls x) IndexError) eqn:Hc.
    + exists (Failed i InvalidPeriodError), acts. eexists.
      refine (conj _ (conj Hq (conj eq_refl I))).
      change (Printed (msg_downloading i end_month) :: ?l)
        with ([Printed (msg_downloading i end_month)] ++ l)%list.
      eapply yields_bind_ok; [apply yields_print|].
      eapply yields_try_raise; [exact Hy|].
      cbn [dispatch catches on_exn except]. rewrite Hc. apply yields_print.
    + exists (Failed i (UnexpectedError x)), acts. eexists.
      refine (conj _ (conj Hq (conj eq_refl I))).
      change (Printed (msg_downloading i end_month) :: ?l)
        with ([Printed (msg_downloading i end_month)] ++ l)%list.
      eapply yields_bind_ok; [apply yields_print|].
      eapply yields_try_raise; [exact Hy|].
      cbn [dispatch catches on_exn except except_Exception]. rewrite Hc.
      apply yields_print2.
Qed.

Lemma starts_call (Q : Event -> Prop) a st :
  Q (Called a) -> (forall e, Q (Raised a e)) -> starts_with Q (call env a) st.
Proof.
  intros Hc Hr. destruct (oracle env (trace st) a) as [e|] eqn:Ho.
  - exists (Raise e), (Raised a e), [], (log (Raised a e) st).
    split; [apply yields_call_raise; exact Ho | apply Hr].
  - exists (Ok tt), (Called a), [], (log (Called a) st).
    split; [apply yields_call_ok; exact Ho | exact Hc].
Qed.

Lemma starts_bind {A B} Q (m : M A) (k : A -> M B) st :
  starts_with Q m st -> (forall a, emits any_event (k a)) ->
  starts_with Q (bind m k) st.
Proof.
  intros ([a|e] & ev & rest & st1 & Hy & HQ) Hk.
  - destruct (Hk a st1) as (r & evs2 & st2 & Hy2 & _).
    exists r, ev, (rest ++ evs2)%list, st2. split; [|exact HQ].
    change (ev :: rest ++ evs2)%list with ((ev :: rest) ++ evs2)%list.
    eapply yields_bind_ok; eauto.
  - exists (Raise e), ev, rest, st1. split; [|exact HQ].
    apply yields_bind_raise. exact Hy.
Qed.

Lemma starts_after_field {A} Q get attr (k : handle -> M A) st h :
  get (self st) = Some h -> starts_with Q (k h) st ->
  starts_with Q (bind (field get attr) k) st.
Proof.
  intros Hg (r & ev & rest & st1 & Hy & HQ).
  exists r, ev, rest, st1. split; [|exact HQ].
  change (ev :: rest) with ([] ++ ev :: rest)%list.
  eapply yields_bind_ok; [apply yields_field; exact Hg | exact Hy].
Qed.

Lemma starts_try_except {A} Q (m : M A) hs st :
  starts_with Q m st ->
  Forall (fun h => forall x, emits any_event (on_exn h x)) hs ->
  starts_with Q (try_except m hs) st.
Proof.
  intros ([a|e] & ev & rest & st1 & Hy & HQ) Hhs.
  - exists (Ok a), ev, rest, st1. split; [|exact HQ].
    apply yields_try_ok. exact Hy.
  - destruct (emits_dispatch any_event hs e Hhs st1) as (r & evs2 & st2 & Hy2 & _).
    exists r, ev, (rest ++ evs2)%list, st2. split; [|exact HQ].
    change (ev :: rest ++ evs2)%list with ((ev :: rest) ++ evs2)%list.
    eapply yields_try_raise; eauto.
Qed.

Lemma try_download_emits_any (i end_month : Z) :
  emits any_event (try_download env i end_month).
Proof.
  unfold try_download, start_download, save_download, get_output_path.
  emits_tac; exact I.
Qed.

Lemma iteration_starts (end_month i : Z) st p :
  page (self st) = Some p ->
  exists ev rest st',
    yields (iteration env end_month i) st (Ok tt)
      (Printed (msg_downloading i end_month) :: ev :: rest) st' /\
    is_outcome_of (month_filter_wait p) ev.
Proof.
  intros Hp.
  assert (Hs : starts_with (is_outcome_of (month_filter_wait p))
                 (try_except (period_work env i end_month)
                    [ except IndexError (fun _ => print (msg_invalid i end_month));
                      except_Exception
                        (fun e => print (msg_unexpected i end_month e) ;;
                                  print msg_skipping) ])
                 (log (Printed (msg_downloading i end_month)) st)).
  { apply starts_try_except.
    - unfold period_work. apply starts_bind; [|intros; apply try_download_emits_any].
      unfold select_bulan. eapply starts_after_field; [exact Hp|].
      apply starts_bind.
      + apply starts_call; [left; reflexivity | intros e; right; exists e; reflexivity].
      + unfold get_month_name_call. emits_tac; exact I.
    - emits_tac; exact I. }
  destruct Hs as (r & ev & rest & st' & Hy & HQ).
  exists ev, rest, st'. split; [|exact HQ].
  assert (Hit : yields (iteration env end_month i) st r
                  ([Printed (msg_downloading i end_month)] ++ ev :: rest) st').
  { unfold iteration. eapply yields_bind_ok; [apply yields_print | exact Hy]. }
  destruct (iteration_runs end_month i st) as (r0 & acts & st0 & (Hrun & _) & _).
  destruct Hit as (Hrun' & Ht & Hself).
  rewrite Hrun in Hrun'. inversion Hrun'; subst.
  repeat split; assumption.
Qed.

Lemma attempted_app_l p e j evs1 evs2 :
  attempted p e j evs1 -> attempted p e j (evs1 ++ evs2).
Proof.
  intros (pre & ev & post & -> & H).
  exists pre, ev, (post ++ evs2)%list. split; [|exact H].
  rewrite <- app_assoc. reflexivity.
Qed.

Lemma attempted_app_r p e j evs1 evs2 :
  attempted p e j evs2 -> attempted p e j (evs1 ++ evs2).
Proof.
  intros (pre & ev & post & -> & H).
  exists (evs1 ++ pre)%list, ev, post. split; [|exact H].
  rewrite <- app_assoc. reflexivity.
Qed.

(** The loop over any list of periods: it ends normally, prints one report
    per period in the order of the list, and attempts every period. *)
Lemma loop_runs (end_month : Z) (periods : list Z) st :
  exists rs evs st',
    yields (for_each periods (iteration env end_month)) st (Ok tt) evs st' /\
    map period_of rs = periods /\
    stdout evs = flat_map (report end_month) rs /\
    (forall p j, page (self st) = Some p -> In j periods ->
                 attempted p end_month j evs).
Proof.
  revert st. induction periods as [|i periods IH]; intros st.
  - exists [], [], st. unfold yields. cbn. rewrite app_nil_r.
    repeat split; auto. intros p j _ [].
  - destruct (iteration_runs end_month i st)
      as (r & acts & st1 & Hy1 & Hq & Hr & _).
    destruct (IH st1) as (rs & evs & st2 & Hy2 & Hrs & Hout & Hatt).
    exists (r :: rs). eexists. exists st2. split; [|split; [|split]].
    + cbn [for_each]. eapply yields_bind_ok; [exact Hy1 | exact Hy2].
    + cbn. rewrite Hr, Hrs. reflexivity.
    + change (Printed (msg_downloading i end_month)
                :: acts ++ map Printed (outcome_lines end_month r))%list
        with ([Printed (msg_downloading i end_month)]
                ++ acts ++ map Printed (outcome_lines end_month r))%list.
      rewrite !stdout_app, (stdout_calls acts Hq), stdout_printed, Hout.
      cbn. unfold report. rewrite Hr. reflexivity.
    + intros p j Hp [<-|Hj].
      * destruct (iteration_starts end_month i st p Hp)
          as (ev & rest & st1' & Hy1' & Hev).
        destruct Hy1 as (E1 & T1 & _). destruct Hy1' as (E1' & T1' & _).
        rewrite E1 in E1'. inversion E1'; subst st1'.
        rewrite T1 in T1'. apply app_inv_head in T1'. rewrite T1'.
        apply attempted_app_l. exists [], ev, rest. split; [reflexivity | exact Hev].
      * apply attempted_app_r. apply (Hatt p j); [|exact Hj].
        destruct Hy1 as (_ & _ & S1). rewrite S1. exact Hp.
Qed.

Lemma for_each_app_ok {A} (l1 l2 : list A) (body : A -> M unit) st st1 :
  for_each l1 body st = (Ok tt, st1) ->
  for_each (l1 ++ l2) body st = for_each l2 body st1.
Proof.
  revert st. induction l1 as [|x l1 IH]; intros st H; cbn in *.
  - unfold ret in H. inversion H. reflexivity.
  - unfold bind in *. destruct (body x st) as [[[]|e] st'].
    + apply IH. exact H.
    + discriminate.
Qed.

Lemma prepare_emits (P : Event -> Prop) :
  (forall ev, is_call ev -> P ev) -> emits P (prepare env).
Proof.
  intros H. unfold prepare, open_listing, select_skpd.
  emits_tac; apply H; exact I.
Qed.

Lemma prepare_ok st0 st1 :
  prepare env st0 = (Ok tt, st1) ->
  exists p evs,
    page (self st0) = Some p /\ self st1 = self st0 /\
    trace st1 = (trace st0 ++ evs)%list /\ Forall is_call evs.
Proof.
  intros H.
  destruct (prepare_emits is_call (fun _ h => h) st0)
    as (r & evs & st' & (E & T & S) & Hq).
  rewrite H in E. inversion E; subst r st'.
  unfold prepare, open_listing, bind, field in H.
  destruct (page (self st0)) as [p|]; [|discriminate].
  exists p, evs. auto.
Qed.

Lemma state_before_runs (start_month end_month i : Z) st :
  for_each (range start_month i) (iteration env end_month) st
  = (Ok tt, state_before env start_month end_month i st).
Proof.
  unfold state_before.
  destruct (loop_runs end_month (range start_month i) st)
    as (rs & evs & st' & (E & _) & _).
  rewrite E. reflexivity.
Qed.

(** Once the listing page is ready the outer handlers have nothing to catch. *)
Lemma download_realisasi_after_prepare (start_month end_month : Z) st0 st1 :
  prepare env st0 = (Ok tt, st1) ->
  download_realisasi env start_month end_month st0
  = download_loop env start_month end_month st1.
Proof.
  intros H. unfold download_realisasi, try_except, bind. rewrite H.
  unfold download_loop.
  destruct (loop_runs end_month (range start_month (end_month + 1)) st1)
    as (rs & evs & st' & (E & _) & _).
  rewrite E. reflexivity.
Qed.

Lemma download_realisasi_emits (P : Event -> Prop) (start_month end_month : Z) :
  emits P (prepare env) ->
  (forall e, P (Printed (msg_page_load e))) ->
  (forall e, P (Printed (msg_critical e))) ->
  (forall i, start_month <= i <= end_month -> emits P (iteration env end_month i)) ->
  emits P (download_realisasi env start_month end_month).
Proof.
  intros Hc Hp Hk Hi. unfold download_realisasi, download_loop.
  apply emits_try_except.
  - apply emits_bind; [exact Hc|].
    intros _. apply emits_for_each. intros i Hin.
    apply Hi. apply in_range in Hin. lia.
  - emits_tac; auto.
Qed.

(** No exception leaves [download_realisasi]. *)
Lemma download_realisasi_returns (start_month end_month : Z) st :
  fst (download_realisasi env start_month end_month st) = Ok tt.
Proof.
  unfold download_realisasi, try_except.
  destruct ((prepare env ;; download_loop env start_month end_month) st)
    as [[[]|x] st1]; [reflexivity|].
  cbn [dispatch catches on_exn except except_Exception].
  destruct (exn_class_eqb (exn_cls x) PlaywrightTimeoutError); reflexivity.
Qed.

End Download.

Lemma state_before_self env (start_month end_month i : Z) st :
  self (state_before env start_month end_month i st) = self st.
Proof.
  unfold state_before.
  destruct (loop_runs env end_month (range start_month i) st)
    as (rs & evs & st' & (E & _ & S) & _).
  rewrite E. exact S.
Qed.

Lemma period_work_self env (i end_month : Z) st r st' :
  period_work env i end_month st = (r, st') -> self st' = self st.
Proof.
  intros H.
  destruct (period_work_runs env i end_month st)
    as (acts & st1 & _ & [(path & _ & E & _ & S) | [(x & E & _ & S) | (x & E & _ & S)]]);
    rewrite H in E; inversion E; subst; exact S.
Qed.

(** C1.  However the work of period [i] ends, normally or by raising any
    exception [x] (an invalid month, a download timeout, anything else), no
    exception leaves [download_realisasi], and every later period of the
    range is still attempted after it. *)
Theorem C1_period_failure_is_isolated
    (env : Env) (start_month end_month i : Z) (st0 st1 st_x : State)
    (r : result unit) :
  prepare env st0 = (Ok tt, st1) ->
  start_month <= i <= end_month ->
  period_work env i end_month
    (log (Printed (msg_downloading i end_month))
       (state_before env start_month end_month i st1))
  = (r, st_x) ->
  exists p st' later,
    page (self st0) = Some p /\
    download_realisasi env start_month end_month st0 = (Ok tt, st') /\
    trace st' = (trace st_x ++ later)%list /\
    forall j, i < j <= end_month -> attempted p end_month j later.
Proof.
  intros Hprep Hi Hwork.
  destruct (prepare_ok env st0 st1 Hprep) as (p & evs0 & Hp & Hself1 & _).
  exists p.
  rewrite (download_realisasi_after_prepare env _ _ _ _ Hprep).
  unfold download_loop.
  rewrite (range_split start_month i (end_month + 1)) by lia.
  rewrite (for_each_app_ok _ _ _ _ _ (state_before_runs env start_month end_month i st1)).
  assert (Hpx : page (self st_x) = Some p).
  { rewrite (period_work_self env _ _ _ _ _ Hwork). cbn [self log].
    rewrite state_before_self, Hself1. exact Hp. }
  cbn [for_each]. unfold bind at 1.
  unfold iteration at 1. unfold bind at 1, print at 1, try_except at 1.
  rewrite Hwork. destruct r as [[]|x].
  { destruct (loop_runs env end_month (range (i + 1) (end_month + 1)) st_x)
      as (rs & evs & st' & (E & T & _) & _ & _ & Hatt).
    exists st', evs. split; [exact Hp|]. split; [exact E|]. split; [exact T|].
    intros j Hj. apply Hatt; [exact Hpx | apply in_range; lia]. }
  cbn [dispatch catches on_exn except except_Exception].
  destruct (exn_class_eqb (exn_cls x) IndexError).
  - unfold print at 1.
    destruct (loop_runs env end_month (range (i + 1) (end_month + 1))
                (log (Printed (msg_invalid i end_month)) st_x))
      as (rs & evs & st' & (E & T & _) & _ & _ & Hatt).
    exists st', (Printed (msg_invalid i end_month) :: evs).
    split; [exact Hp|]. split; [exact E|]. split.
    + rewrite T. cbn [trace log]. rewrite <- app_assoc. reflexivity.
    + intros j Hj.
      apply (attempted_app_r p end_month j [Printed (msg_invalid i end_month)]).
      apply Hatt; [exact Hpx | apply in_range; lia].
  - unfold bind at 1, print at 1 2.
    destruct (loop_runs env end_month (range (i + 1) (end_month + 1))
                (log (Printed msg_skipping)
                   (log (Printed (msg_unexpected i end_month x)) st_x)))
      as (rs & evs & st' & (E & T & _) & _ & _ & Hatt).
    exists st', (Printed (msg_unexpected i end_month x) :: Printed msg_skipping :: evs).
    split; [exact Hp|]. split; [exact E|]. split.
    + rewrite T. cbn [trace log]. rewrite <- !app_assoc. reflexivity.
    + intros j Hj.
      apply (attempted_app_r p end_month j
               [Printed (msg_unexpected i end_month x); Printed msg_skipping]).
      apply Hatt; [exact Hpx | apply in_range; lia].
Qed.

(** Periods 1 to 3 with the second download timing out: two files saved,
    three reports. *)
Example scenario_one_timeout_in_three :
  let tr := trace (snd (download_realisasi Scenario.second_download_stalls 1 3
                          Scenario.ready)) in
  saved_paths tr
  = [ "output/Laporan Realisasi 2024-12-31/2024-01-Laporan Realisasi.xlsx";
      "output/Laporan Realisasi 2024-12-31/2024-03-Laporan Realisasi.xlsx" ] /\
  stdout tr
  = (report 3 (Success 1 "output/Laporan Realisasi 2024-12-31/2024-01-Laporan Realisasi.xlsx")
     ++ report 3 (Failed 2 (DownloadTimeoutError Scenario.timed_out))
     ++ report 3 (Success 3 "output/Laporan Realisasi 2024-12-31/2024-03-Laporan Realisasi.xlsx"))%list /\
  stdout tr
  = [ "(1/3) --- Downloading file...";
      "(1/3) --- Download success! File saved as 2024-01-Laporan Realisasi.xlsx";
      "(2/3) --- Downloading file...";
      "(2/3) --- Download failed: Timeout 120000ms exceeded.";
      "Retrying...";
      "(3/3) --- Downloading file...";
      "(3/3) --- Download success! File saved as 2024-03-Laporan Realisasi.xlsx" ].
Proof. cbv zeta. repeat split; vm_compute; reflexivity. Qed.

(** Once a page exists no exception leaves [login_with_cookies]. *)
Lemma login_with_cookies_returns env st p :
  page (self st) = Some p -> fst (login_with_cookies env st) = Ok tt.
Proof.
  intros Hp. unfold login_with_cookies, bind at 1, ensure_page. rewrite Hp.
  unfold try_except.
  match goal with |- context [let (_, _) := ?b st in _] => destruct (b st) as [[[]|x] st1] end;
    [reflexivity|].
  cbn [dispatch catches on_exn except except_Exception].
  destruct (exn_class_eqb (exn_cls x) FileNotFoundError); [reflexivity|].
  destruct (exn_class_eqb (exn_cls x) JSONDecodeError); reflexivity.
Qed.

(** C1 on a run over periods 12 to 14, where period 13 has no name. *)
Lemma C1_witness :
  exists p st' later,
    page (self Scenario.logged_in) = Some p /\
    download_realisasi Scenario.calm 12 14 Scenario.logged_in = (Ok tt, st') /\
    trace st' =
      (trace (snd (period_work Scenario.calm 13 14
                     (log (Printed (msg_downloading 13 14))
                        (state_before Scenario.calm 12 14 13
                           (snd (prepare Scenario.calm Scenario.logged_in))))))
       ++ later)%list /\
    forall j, 13 < j <= 14 -> attempted p 14 j later.
Proof.
  apply (C1_period_failure_is_isolated Scenario.calm 12 14 13 Scenario.logged_in
           (snd (prepare Scenario.calm Scenario.logged_in)) _
           (Raise (mkExn IndexError "list index out of range"))).
  - vm_compute. reflexivity.
  - lia.
  - vm_compute. reflexivity.
Defined.

Lemma rest_of_loop env (p : handle) (end_month i : Z) st :
  page (self st) = Some p -> i <= end_month ->
  exists st' later,
    for_each (range (i + 1) (end_month + 1)) (iteration env end_month) st = (Ok tt, st') /\
    trace st' = (trace st ++ later)%list /\
    next_period_follows p end_month i later.
Proof.
  intros Hp Hi. destruct (Z.eq_dec i end_month) as [->|Hne].
  - rewrite range_nil by lia. exists st, []. cbn. rewrite app_nil_r.
    repeat split. left. auto.
  - rewrite (range_cons (i + 1) (end_month + 1)) by lia. cbn [for_each].
    destruct (iteration_starts env end_month (i + 1) st p Hp)
      as (ev & rest & st1 & (E1 & T1 & S1) & Hev).
    destruct (loop_runs env end_month (range (i + 1 + 1) (end_month + 1)) st1)
      as (rs & evs & st2 & (E2 & T2 & _) & _).
    exists st2, (Printed (msg_downloading (i + 1) end_month) :: ev :: rest ++ evs)%list.
    split; [|split].
    + unfold bind. rewrite E1. exact E2.
    + rewrite T2, T1, <- app_assoc. reflexivity.
    + right. split; [lia|]. eauto.
Qed.

Lemma try_download_timeout env (i end_month : Z) st (p : handle) (x : exn) :
  page (self st) = Some p ->
  oracle env (trace st) (Click (btn_download p)) = None ->
  oracle env (trace st ++ [Called (Click (btn_download p))])
    (ExpectDownload p 120000) = Some x ->
  exn_cls x = PlaywrightTimeoutError ->
  try_download env i end_month st
  = (Ok tt,
     log (Printed msg_retrying)
       (log (Printed (msg_failed i end_month x))
          (log (Raised (ExpectDownload p 120000) x)
             (log (Called (Click (btn_download p))) st)))).
Proof.
  intros Hp Hclick Hwait Hx.
  unfold try_download, start_download, try_except, bind, field, call, create.
  cbv beta. rewrite Hp. cbv beta iota. rewrite Hp. cbv beta iota.
  rewrite Hclick. cbv beta iota. cbn [trace log]. rewrite Hwait.
  cbn [dispatch catches on_exn except]. rewrite Hx. reflexivity.
Qed.

Lemma select_bulan_self env (i : Z) st r st' :
  select_bulan env i st = (r, st') -> self st' = self st.
Proof.
  intros H.
  destruct (select_bulan_quiet env i st) as (r0 & evs & st0 & (E & _ & S) & _).
  rewrite H in E. inversion E; subst. exact S.
Qed.

(** C2.  When the month filter of period [i] is selected, the click on
    Download goes through and the wait for the download to start (120 s)
    times out, the period is reported as a failed download, nothing is tried
    again for it, and the next period starts at once. *)
Theorem C2_download_timeout_recorded_without_retry
    (env : Env) (start_month end_month i : Z) (st0 st1 st_b : State)
    (p : handle) (x : exn) :
  prepare env st0 = (Ok tt, st1) ->
  page (self st0) = Some p ->
  start_month <= i <= end_month ->
  select_bulan env i
    (log (Printed (msg_downloading i end_month))
       (state_before env start_month end_month i st1))
  = (Ok tt, st_b) ->
  oracle env (trace st_b) (Click (btn_download p)) = None ->
  oracle env (trace st_b ++ [Called (Click (btn_download p))])
    (ExpectDownload p 120000) = Some x ->
  exn_cls x = PlaywrightTimeoutError ->
  exists st' later,
    download_realisasi env start_month end_month st0 = (Ok tt, st') /\
    trace st' =
      (trace st_b
       ++ [ Called (Click (btn_download p));
            Raised (ExpectDownload p 120000) x;
            Printed (msg_failed i end_month x);
            Printed msg_retrying ]
       ++ later)%list /\
    next_period_follows p end_month i later.
Proof.
  intros Hprep Hp Hi Hsel Hclick Hwait Hx.
  destruct (prepare_ok env st0 st1 Hprep) as (p' & evs0 & Hp' & Hself1 & _).
  assert (Hpb : page (self st_b) = Some p).
  { rewrite (select_bulan_self env _ _ _ _ Hsel). cbn [self log].
    rewrite state_before_self, Hself1. exact Hp. }
  rewrite (download_realisasi_after_prepare env _ _ _ _ Hprep).
  unfold download_loop.
  rewrite (range_split start_month i (end_month + 1)) by lia.
  rewrite (for_each_app_ok _ _ _ _ _ (state_before_runs env start_month end_month i st1)).
  cbn [for_each]. unfold bind at 1.
  unfold iteration at 1. unfold bind at 1, print at 1, try_except at 1.
  unfold period_work at 1. unfold bind at 1. rewrite Hsel.
  rewrite (try_download_timeout env i end_month st_b p x Hpb Hclick Hwait Hx).
  match goal with
  | |- context [for_each _ _ ?st] =>
      destruct (rest_of_loop env p end_month i st) as (st' & later & E & T & N)
  end.
  { exact Hpb. }
  { lia. }
  exists st', later. split; [exact E|]. split; [|exact N].
  rewrite T. cbn [trace log]. rewrite <- !app_assoc. reflexivity.
Qed.

(** C2 on a run over periods 1 to 3 whose second download never starts. *)
Lemma C2_witness :
  exists st' later,
    download_realisasi Scenario.second_download_stalls 1 3 Scenario.logged_in
    = (Ok tt, st') /\
    trace st' =
      (trace (snd (select_bulan Scenario.second_download_stalls 2
                     (log (Printed (msg_downloading 2 3))
                        (state_before Scenario.second_download_stalls 1 3 2
                           (snd (prepare Scenario.second_download_stalls
                                   Scenario.logged_in))))))
       ++ [ Called (Click (btn_download 3%nat));
            Raised (ExpectDownload 3%nat 120000) Scenario.timed_out;
            Printed (msg_failed 2 3 Scenario.timed_out);
            Printed msg_retrying ]
       ++ later)%list /\
    next_period_follows 3%nat 3 2 later.
Proof.
  apply (C2_download_timeout_recorded_without_retry
           Scenario.second_download_stalls 1 3 2 Scenario.logged_in
           (snd (prepare Scenario.second_download_stalls Scenario.logged_in))).
  - vm_compute. reflexivity.
  - vm_compute. reflexivity.
  - lia.
  - vm_compute. reflexivity.
  - vm_compute. reflexivity.
  - vm_compute. reflexivity.
  - reflexivity.
Defined.

(** C3.  When the listing page does not load, [download_realisasi] stops at
    once and reports no period, but the failure is only printed: the call
    returns normally, so nothing reaches the caller as an exception or an
    error value, although the docstring announces [Raises: Exception]. *)
Theorem C3_listing_failure_is_printed_not_raised :
  download_realisasi Scenario.listing_unreachable 1 3 Scenario.logged_in
  = (Ok tt,
     {| self := self Scenario.logged_in;
        trace := (trace Scenario.logged_in
                  ++ [ Raised (Goto 3%nat _URL_PENATAUSAHAAN_REALISASI None)
                         Scenario.timed_out;
                       Printed (msg_page_load Scenario.timed_out) ])%list;
        next_handle := next_handle Scenario.logged_in |}).
Proof. vm_compute. reflexivity. Qed.

(** C4, as first stated, fails: with an empty range and every call
    succeeding, the shared filter is used all the same. *)
Lemma C4_counterexample :
  2 > 1 /\
  no_filter_interaction
    (trace (snd (download_realisasi Scenario.calm 2 1
                   Scenario.ready)))
  = false.
Proof. split; [lia | vm_compute; reflexivity]. Qed.

Lemma prepare_leaves_month_filter env :
  emits (fun ev => is_call ev /\ touches is_month_filter ev = false) (prepare env).
Proof.
  unfold prepare, open_listing, select_skpd.
  emits_tac; split; first [exact I | reflexivity].
Qed.

Lemma select_skpd_ok env st st1 :
  select_skpd env st = (Ok tt, st1) ->
  exists p, page (self st) = Some p /\
            trace st1 = (trace st ++ skpd_selection p)%list.
Proof.
  unfold select_skpd, bind, field, call. cbv beta.
  destruct (page (self st)) as [p|]; [|discriminate]. cbv beta iota.
  destruct (oracle env _ _); [discriminate|]. cbv beta iota.
  destruct (oracle env _ _); [discriminate|]. cbv beta iota.
  destruct (oracle env _ _); [discriminate|]. cbv beta iota.
  destruct (oracle env _ _); [discriminate|]. cbv beta iota.
  intros H. inversion H; subst st1. exists p. split; [reflexivity|].
  cbn [trace log skpd_selection]. rewrite <- !app_assoc. reflexivity.
Qed.

Lemma open_listing_ok env st st1 :
  open_listing env st = (Ok tt, st1) ->
  exists p, page (self st) = Some p /\ self st1 = self st /\
            trace st1 = (trace st ++ listing_opening p)%list.
Proof.
  unfold open_listing, bind, field, call. cbv beta.
  destruct (page (self st)) as [p|] eqn:Hp; [|discriminate]. cbv beta iota.
  destruct (oracle env _ _); [discriminate|]. cbv beta iota.
  cbn [self log]. rewrite Hp. cbv beta iota.
  destruct (oracle env _ _); [discriminate|]. cbv beta iota.
  intros H. inversion H; subst st1. exists p. split; [reflexivity|].
  split; [reflexivity|].
  cbn [trace log listing_opening]. rewrite <- !app_assoc. reflexivity.
Qed.

(** A run over an empty range: no period is reported and the month filter
    is never touched; when lines 182-191 succeed the run is just those. *)
Lemma empty_range_run
    (env : Env) (start_month end_month : Z) (st : State) :
  start_month > end_month ->
  exists evs st',
    yields (download_realisasi env start_month end_month) st (Ok tt) evs st' /\
    Forall (fun ev => touches is_month_filter ev = false) evs /\
    (stdout evs = flat_map (report end_month) [] \/
     exists x, stdout evs = [msg_page_load x] \/ stdout evs = [msg_critical x]) /\
    (forall st1, prepare env st = (Ok tt, st1) ->
       st' = st1 /\
       exists p, evs = (listing_opening p ++ skpd_selection p)%list).
Proof.
  intros Hgt. unfold download_realisasi, download_loop.
  rewrite range_nil by lia. cbn [for_each].
  destruct (prepare_leaves_month_filter env st) as (r & evs & st1 & Hy & Hall).
  assert (Hq : Forall is_call evs) by (eapply Forall_impl; [|exact Hall]; intros ? []; auto).
  assert (Hm : Forall (fun ev => touches is_month_filter ev = false) evs)
    by (eapply Forall_impl; [|exact Hall]; intros ? []; auto).
  destruct r as [[]|x].
  - exists evs, st1. split; [|split; [exact Hm|split]].
    + apply yields_try_ok. rewrite <- (app_nil_r evs).
      eapply yields_bind_ok; [exact Hy|].
      unfold yields, ret. rewrite app_nil_r. auto.
    + left. apply stdout_calls. exact Hq.
    + intros st2 H2. destruct Hy as (E & T & _). rewrite E in H2. inversion H2; subst st2.
      split; [reflexivity|].
      unfold prepare, bind in E.
      destruct (open_listing env st) as [[[]|y] st_o] eqn:Ho; [|discriminate].
      destruct (open_listing_ok env st st_o Ho) as (p & Hp & So & To).
      destruct (select_skpd_ok env st_o st1 E) as (p' & Hp' & Tp).
      rewrite So, Hp in Hp'. inversion Hp'; subst p'.
      exists p. rewrite T, To, <- app_assoc in Tp.
      apply app_inv_head in Tp. exact Tp.
  - destruct (exn_class_eqb (exn_cls x) PlaywrightTimeoutError) eqn:Hc.
    + exists (evs ++ [Printed (msg_page_load x)])%list. eexists.
      split; [|split; [|split]].
      * eapply yields_try_raise; [apply yields_bind_raise; exact Hy|].
        cbn [dispatch catches on_exn except]. rewrite Hc. apply yields_print.
      * apply Forall_app. split; [exact Hm | repeat constructor].
      * right. exists x. left. rewrite stdout_app, (stdout_calls evs Hq). reflexivity.
      * intros st2 H2. destruct Hy as (E & _). rewrite E in H2. discriminate.
    + exists (evs ++ [Printed (msg_critical x)])%list. eexists.
      split; [|split; [|split]].
      * eapply yields_try_raise; [apply yields_bind_raise; exact Hy|].
        cbn [dispatch catches on_exn except except_Exception]. rewrite Hc.
        apply yields_print.
      * apply Forall_app. split; [exact Hm | repeat constructor].
      * right. exists x. right. rewrite stdout_app, (stdout_calls evs Hq). reflexivity.
      * intros st2 H2. destruct Hy as (E & _). rewrite E in H2. discriminate.
Qed.


Lemma range_sorted (a b : Z) : StronglySorted Z.lt (range a b).
Proof.
  remember (Z.to_nat (b - a)) as n eqn:En.
  revert a En. induction n as [|n IH]; intros a En.
  - rewrite range_nil by lia. constructor.
  - rewrite range_cons by lia. constructor.
    + apply IH. lia.
    + apply Forall_forall. intros j Hj. apply in_range in Hj. lia.
Qed.

Lemma report_length (end_month : Z) (r : DownloadAttemptResult) :
  (2 <= List.length (report end_month r))%nat.
Proof. destruct r as [i path | i [| e | e]]; cbn; lia. Qed.

(** C5, as first stated, fails: with a valid range but a listing page that
    does not load, nothing is reported for any period. *)
Lemma C5_counterexample :
  1 <= 3 /\
  ~ exists rs : list DownloadAttemptResult,
      Z.of_nat (List.length rs) = 3 - 1 + 1 /\
      stdout (trace (snd (download_realisasi Scenario.listing_unreachable 1 3
                            Scenario.ready)))
      = flat_map (report 3) rs.
Proof.
  split; [lia|]. intros (rs & Hlen & Hout).
  apply (f_equal (@List.length string)) in Hout.
  destruct rs as [|r rs]; [cbn in Hlen; lia|].
  cbn [flat_map] in Hout. rewrite length_app in Hout.
  pose proof (report_length 3 r) as Hr.
  vm_compute in Hout. vm_compute in Hr.
  change (1%nat = (List.length (report 3 r) + List.length (flat_map (report 3) rs))%nat) in Hout.
  change (2 <= List.length (report 3 r))%nat in Hr.
  lia.
Qed.

(** C5.  When the listing page is ready, a range with
    [start_month <= end_month] yields [end_month - start_month + 1] reports on
    standard output, one per period, in strictly ascending period order; the
    call itself returns nothing. *)
Theorem C5_one_report_per_period
    (env : Env) (start_month end_month : Z) (st0 st1 : State) :
  prepare env st0 = (Ok tt, st1) ->
  start_month <= end_month ->
  exists rs evs st',
    download_realisasi env start_month end_month st0 = (Ok tt, st') /\
    trace st' = (trace st1 ++ evs)%list /\
    stdout evs = flat_map (report end_month) rs /\
    Z.of_nat (List.length rs) = end_month - start_month + 1 /\
    map period_of rs = range start_month (end_month + 1) /\
    StronglySorted Z.lt (map period_of rs).
Proof.
  intros Hprep Hle.
  rewrite (download_realisasi_after_prepare env _ _ _ _ Hprep).
  unfold download_loop.
  destruct (loop_runs env end_month (range start_month (end_month + 1)) st1)
    as (rs & evs & st' & (E & T & _) & Hrs & Hout & _).
  exists rs, evs, st'. repeat split; auto.
  - rewrite <- (length_map period_of), Hrs, length_range; lia.
  - rewrite Hrs. apply range_sorted.
Qed.

(** C5 on a run over periods 1 to 3. *)
Lemma C5_witness :
  exists rs evs st',
    download_realisasi Scenario.second_download_stalls 1 3 Scenario.logged_in
    = (Ok tt, st') /\
    trace st' =
      (trace (snd (prepare Scenario.second_download_stalls Scenario.logged_in))
       ++ evs)%list /\
    stdout evs = flat_map (report 3) rs /\
    Z.of_nat (List.length rs) = 3 - 1 + 1 /\
    map period_of rs = range 1 (3 + 1) /\
    StronglySorted Z.lt (map period_of rs).
Proof.
  apply (C5_one_report_per_period Scenario.second_download_stalls 1 3
           Scenario.logged_in).
  - vm_compute. reflexivity.
  - lia.
Defined.

Lemma get_month_name_invalid (label : Z -> string) (i : Z) :
  i < 1 \/ 12 < i ->
  get_month_name label i = Raise (mkExn IndexError "list index out of range").
Proof.
  intros H. unfold get_month_name.
  destruct (1 <=? i)%Z eqn:H1; destruct (i <=? 12)%Z eqn:H2; cbn; try reflexivity.
  apply Z.leb_le in H1. apply Z.leb_le in H2. lia.
Qed.

Lemma iteration_invalid env (label : Z -> string) (end_month i : Z) st (p : handle) :
  month_name env i = get_month_name label i ->
  i < 1 \/ 12 < i ->
  page (self st) = Some p ->
  oracle env (trace st ++ [Printed (msg_downloading i end_month)])
    (month_filter_wait p) = None ->
  oracle env ((trace st ++ [Printed (msg_downloading i end_month)])
              ++ [Called (month_filter_wait p)])
    (Click (month_filter p)) = None ->
  iteration env end_month i st
  = (Ok tt,
     log (Printed (msg_invalid i end_month))
       (log (Called (Click (month_filter p)))
          (log (Called (month_filter_wait p))
             (log (Printed (msg_downloading i end_month)) st)))).
Proof.
  intros Hm Hi Hp Hwait Hclick.
  unfold iteration, period_work, select_bulan, get_month_name_call.
  unfold try_except, bind, print, field, call, lift. cbv beta.
  unfold month_filter_wait, month_filter in *.
  cbn [self trace log]. rewrite Hp. cbv beta iota. cbn [self trace log].
  rewrite Hwait. cbv beta iota. cbn [self trace log].
  rewrite Hclick. cbv beta iota.
  rewrite Hm, (get_month_name_invalid label i Hi).
  reflexivity.
Qed.

(** C6, as first stated, fails: with the month filter not answering, an
    out-of-range period is reported as an unexpected error, not as an
    invalid month. *)
Lemma C6_counterexample :
  (13 < 1 \/ 12 < 13) /\
  stdout (trace (snd (download_realisasi Scenario.month_filter_stuck 13 13
                        Scenario.ready)))
  = report 13 (Failed 13 (UnexpectedError Scenario.timed_out)) /\
  report 13 (Failed 13 (UnexpectedError Scenario.timed_out))
  <> report 13 (Failed 13 InvalidPeriodError).
Proof.
  split; [lia|]. split; [vm_compute; reflexivity|].
  vm_compute. discriminate.
Qed.

(** C6.  A period [i] outside [1, 12] whose month filter answers
    (the wait and the click succeed) is reported as an invalid month: the
    lookup of its name raises, the loop catches it, no exception leaves
    [download_realisasi], and every other period of the range still gets
    its own report. *)
Theorem C6_invalid_period_recorded
    (env : Env) (label : Z -> string) (start_month end_month i : Z)
    (st0 st1 : State) (p : handle) :
  (forall j, month_name env j = get_month_name label j) ->
  prepare env st0 = (Ok tt, st1) ->
  page (self st0) = Some p ->
  start_month <= i <= end_month ->
  i < 1 \/ 12 < i ->
  oracle env
    (trace (state_before env start_month end_month i st1)
     ++ [Printed (msg_downloading i end_month)])
    (month_filter_wait p) = None ->
  oracle env
    ((trace (state_before env start_month end_month i st1)
      ++ [Printed (msg_downloading i end_month)])
     ++ [Called (month_filter_wait p)])
    (Click (month_filter p)) = None ->
  exists rs_before rs_after evs st',
    download_realisasi env start_month end_month st0 = (Ok tt, st') /\
    trace st' = (trace st1 ++ evs)%list /\
    map period_of rs_before = range start_month i /\
    map period_of rs_after = range (i + 1) (end_month + 1) /\
    stdout evs
    = flat_map (report end_month)
        (rs_before ++ Failed i InvalidPeriodError :: rs_after).
Proof.
  intros Hm Hprep Hp Hi Hout Hwait Hclick.
  destruct (prepare_ok env st0 st1 Hprep) as (p' & evs0 & _ & Hself1 & _).
  rewrite (download_realisasi_after_prepare env _ _ _ _ Hprep).
  unfold download_loop.
  rewrite (range_split start_month i (end_month + 1)) by lia.
  pose proof (state_before_runs env start_month end_month i st1) as Hbefore.
  rewrite (for_each_app_ok _ _ _ _ _ Hbefore).
  destruct (loop_runs env end_month (range start_month i) st1)
    as (rs1 & evs1 & st_i & (E1 & T1 & S1) & Hrs1 & Hout1 & _).
  rewrite E1 in Hbefore. inversion Hbefore as [Hst]. clear Hbefore.
  rewrite <- Hst in *.
  assert (Hpi : page (self st_i) = Some p) by (rewrite S1, Hself1; exact Hp).
  cbn [for_each]. unfold bind at 1.
  rewrite (iteration_invalid env label end_month i st_i p (Hm i) Hout Hpi Hwait Hclick).
  match goal with
  | |- context [for_each _ _ ?st] =>
      destruct (loop_runs env end_month (range (i + 1) (end_month + 1)) st)
        as (rs2 & evs2 & st' & (E2 & T2 & _) & Hrs2 & Hout2 & _)
  end.
  exists rs1, rs2.
  exists (evs1 ++ [ Printed (msg_downloading i end_month);
                    Called (month_filter_wait p);
                    Called (Click (month_filter p));
                    Printed (msg_invalid i end_month) ] ++ evs2)%list, st'.
  split; [exact E2|]. split; [|split; [exact Hrs1|split; [exact Hrs2|]]].
  - rewrite T2. cbn [trace log]. rewrite T1, <- !app_assoc. reflexivity.
  - rewrite !stdout_app, Hout1, Hout2, flat_map_app. reflexivity.
Qed.

(** C6 on a run over periods 12 to 14: period 13 is invalid. *)
Lemma C6_witness :
  exists rs_before rs_after evs st',
    download_realisasi Scenario.calm 12 14 Scenario.logged_in = (Ok tt, st') /\
    trace st' = (trace (snd (prepare Scenario.calm Scenario.logged_in)) ++ evs)%list /\
    map period_of rs_before = range 12 13 /\
    map period_of rs_after = range (13 + 1) (14 + 1) /\
    stdout evs
    = flat_map (report 14)
        (rs_before ++ Failed 13 InvalidPeriodError :: rs_after).
Proof.
  apply (C6_invalid_period_recorded Scenario.calm Scenario.label 12 14 13
           Scenario.logged_in _ 3%nat).
  - intros j. reflexivity.
  - vm_compute. reflexivity.
  - vm_compute. reflexivity.
  - lia.
  - lia.
  - reflexivity.
  - reflexivity.
Defined.

(** C7.  On a cookie file that does not hold JSON, [login_with_cookies]
    opens the browser, prints the invalid-JSON message and returns normally:
    no error reaches the caller, although the docstring announces
    [Raises: json.JSONDecodeError].  The session stays open and a manual
    login on the same instance goes through afterwards. *)
Theorem C7_malformed_cookies_are_printed_not_raised :
  let st := snd (login_with_cookies Scenario.cookies_malformed initial_state) in
  login_with_cookies Scenario.cookies_malformed initial_state
  = (Ok tt,
     {| self := {| browser := Some 1%nat; context := Some 2%nat; page := Some 3%nat |};
        trace := [ Created SyncPlaywrightStart 0%nat;
                   Created (ChromiumLaunch 0%nat) 1%nat;
                   Created (NewContext 1%nat) 2%nat;
                   Created (NewPage 2%nat) 3%nat;
                   Created (OpenFile "cookies.json") 4%nat;
                   Raised (JsonLoad 4%nat) Scenario.bad_json;
                   FileClosed 4%nat;
                   Printed msg_bad_cookie_json ];
        next_handle := 5%nat |}) /\
  msg_bad_cookie_json <> msg_no_cookie_file /\
  fst (login_manual Scenario.cookies_malformed st) = Ok tt /\
  self (snd (login_manual Scenario.cookies_malformed st)) = self st.
Proof.
  cbv zeta. split; [vm_compute; reflexivity|].
  split; [vm_compute; discriminate|].
  split; vm_compute; reflexivity.
Qed.

(** C8, as first stated, fails: when closing the context raises, the
    exception leaves [close_browser] and closing the browser is never
    attempted. *)
Lemma C8_counterexample :
  browser (self Scenario.logged_in) = Some 1%nat /\
  fst (close_browser Scenario.context_close_fails Scenario.logged_in)
  = Raise Scenario.target_closed /\
  context_close_attempted 2%nat
    (trace (snd (close_browser Scenario.context_close_fails Scenario.logged_in)))
  = true /\
  browser_close_attempted 1%nat
    (trace (snd (close_browser Scenario.context_close_fails Scenario.logged_in)))
  = false.
Proof. repeat split; vm_compute; reflexivity. Qed.

(** C8.  [close_browser] closes the context if there is one and
    then the browser if there is one, the absence of either not preventing
    the other; with no session ever opened it does nothing and does not
    raise; and as long as the two release calls themselves do not raise,
    neither does [close_browser], also when it is called a second time. *)
Theorem C8_close_browser_guards_absence (env : Env) (st : State) :
  (self st = SIPDBot_init -> close_browser env st = (Ok tt, st)) /\
  ((forall tr a, is_release a = true -> oracle env tr a = None) ->
   exists st1 st2,
     yields (close_browser env) st (Ok tt) (release_calls (self st)) st1 /\
     yields (close_browser env) st1 (Ok tt) (release_calls (self st)) st2).
Proof.
  split.
  - intros H. unfold close_browser, bind. rewrite H. cbn. rewrite H. reflexivity.
  - intros Hquiet.
    assert (Hone : forall s, exists s',
               yields (close_browser env) s (Ok tt) (release_calls (self s)) s').
    { intros s. unfold yields, close_browser, bind, call, release_calls.
      destruct (context (self s)) as [c|] eqn:Hc;
        destruct (browser (self s)) as [b|] eqn:Hb;
        cbn [self trace log];
        rewrite ?Hquiet by reflexivity; cbn [self trace log app];
        rewrite ?Hb; rewrite ?Hquiet by reflexivity; cbn [self trace log app];
        eexists; (split; [reflexivity|]); cbn [self trace log];
        rewrite <- ?app_assoc, ?app_nil_r; auto. }
    destruct (Hone st) as (st1 & H1).
    destruct (Hone st1) as (st2 & H2).
    exists st1, st2. split; [exact H1|].
    destruct H1 as (_ & _ & S1). rewrite S1 in H2. exact H2.
Qed.

(** C8 on a logged-in instance whose releases succeed. *)
Lemma C8_witness :
  exists st1 st2,
    yields (close_browser Scenario.calm) Scenario.logged_in (Ok tt)
      (release_calls (self Scenario.logged_in)) st1 /\
    yields (close_browser Scenario.calm) st1 (Ok tt)
      (release_calls (self Scenario.logged_in)) st2.
Proof.
  apply (proj2 (C8_close_browser_guards_absence Scenario.calm Scenario.logged_in)).
  intros tr a _. reflexivity.
Defined.

Lemma save_download_naming env (start_month end_month i : Z) (d : handle) :
  start_month <= i <= end_month ->
  emits (naming_ok env start_month end_month) (save_download env i end_month d).
Proof.
  intros Hi st.
  unfold save_download, get_output_path, get_current_date, yields, bind, ret, call, print.
  cbn.
  destruct (oracle env (trace st) _) as [x|]; cbn.
  - do 3 eexists. split; [repeat split|].
    repeat constructor. exists i, (trace st). auto.
  - destruct (oracle env (trace st ++ _) _) as [x|]; cbn.
    + do 3 eexists. split; [split; [reflexivity|split; [|reflexivity]]|].
      * cbn. rewrite <- app_assoc. reflexivity.
      * repeat constructor; exists i, (trace st); auto.
    + do 3 eexists. split; [split; [reflexivity|split; [|reflexivity]]|].
      * cbn. rewrite <- !app_assoc. reflexivity.
      * repeat constructor; exists i, (trace st); auto.
Qed.

Lemma iteration_naming env (start_month end_month i : Z) :
  start_month <= i <= end_month ->
  emits (naming_ok env start_month end_month) (iteration env end_month i).
Proof.
  intros Hi.
  unfold iteration, period_work, select_bulan, get_month_name_call,
    try_download, start_download.
  emits_tac; try exact I.
  apply save_download_naming. exact Hi.
Qed.

(** Every path [download_realisasi] asks for or saves to is named after a
    date the calendar gave and a period of the range. *)
Lemma every_output_path_is_named
    (env : Env) (start_month end_month : Z) (st : State) :
  exists evs st',
    yields (download_realisasi env start_month end_month) st (Ok tt) evs st' /\
    Forall (naming_ok env start_month end_month) evs.
Proof.
  destruct (download_realisasi_emits env (naming_ok env start_month end_month)
              start_month end_month) with (st := st)
    as (r & evs & st' & Hy & Hall).
  - unfold prepare, open_listing, select_skpd. emits_tac; exact I.
  - intros e. exact I.
  - intros e. exact I.
  - intros i Hi. apply iteration_naming. exact Hi.
  - exists evs, st'. split; [|exact Hall].
    pose proof (download_realisasi_returns env start_month end_month st) as Hr.
    destruct Hy as (E & T & S). rewrite E in Hr. cbn in Hr. subst r.
    repeat split; assumption.
Qed.

(** ** The session after [close_browser] *)

Lemma emits_at_any (s : SIPDBot) {A} P (m : M A) : emits P m -> emits_at s P m.
Proof. intros H st _. apply H. Qed.

Lemma emits_at_bind (s : SIPDBot) {A B} P (m : M A) (k : A -> M B) :
  emits_at s P m -> (forall a, emits_at s P (k a)) -> emits_at s P (bind m k).
Proof.
  intros Hm Hk st Hs. destruct (Hm st Hs) as ([a|e] & evs1 & st1 & Hy1 & H1).
  - assert (Hs1 : self st1 = s) by (destruct Hy1 as (_ & _ & S); congruence).
    destruct (Hk a st1 Hs1) as (r & evs2 & st2 & Hy2 & H2).
    exists r, (evs1 ++ evs2)%list, st2. split.
    + eapply yields_bind_ok; eauto.
    + apply Forall_app; auto.
  - exists (Raise e), evs1, st1. split; [|exact H1].
    apply yields_bind_raise; exact Hy1.
Qed.

Lemma emits_at_field (s : SIPDBot) {A} P get attr (k : handle -> M A) h :
  get s = Some h -> emits_at s P (k h) -> emits_at s P (bind (field get attr) k).
Proof.
  intros Hg Hk st Hs. destruct (Hk st Hs) as (r & evs & st' & Hy & Hall).
  exists r, evs, st'. split; [|exact Hall].
  change evs with ([] ++ evs)%list.
  eapply yields_bind_ok; [apply yields_field; rewrite Hs; exact Hg | exact Hy].
Qed.

Lemma emits_at_ensure_page (s : SIPDBot) {A} env P (k : unit -> M A) p :
  page s = Some p -> emits_at s P (k tt) -> emits_at s P (bind (ensure_page env) k).
Proof.
  intros Hp Hk st Hs. destruct (Hk st Hs) as (r & evs & st' & (E & T & S) & Hall).
  exists r, evs, st'. split; [|exact Hall].
  unfold yields, bind, ensure_page.
  replace (page (self st)) with (Some p) by (rewrite Hs; auto).
  repeat split; assumption.
Qed.

Lemma emits_at_try_except (s : SIPDBot) {A} P (m : M A) hs :
  emits_at s P m -> Forall (fun h => forall x, emits P (on_exn h x)) hs ->
  emits_at s P (try_except m hs).
Proof.
  intros Hm Hhs st Hs. destruct (Hm st Hs) as ([a|e] & evs1 & st1 & Hy1 & H1).
  - exists (Ok a), evs1, st1. split; [|exact H1].
    apply yields_try_ok; exact Hy1.
  - destruct (emits_dispatch P hs e Hhs st1) as (r & evs2 & st2 & Hy2 & H2).
    exists r, (evs1 ++ evs2)%list, st2. split.
    + eapply yields_try_raise; eauto.
    + apply Forall_app; auto.
Qed.

Lemma emits_at_with_open (s : SIPDBot) {A} env (P : Event -> Prop) name
    (body : handle -> M A) :
  (forall f, P (Created (OpenFile name) f)) ->
  (forall e, P (Raised (OpenFile name) e)) ->
  (forall f, P (FileClosed f)) ->
  (forall f, emits_at s P (body f)) ->
  emits_at s P (with_open env name body).
Proof.
  intros Hc Hr Hf Hb. unfold with_open.
  apply emits_at_bind; [apply emits_at_any, emits_create; assumption|].
  intros f st Hs. destruct (Hb f st Hs) as (r & evs & st' & (E & T & S) & Hall).
  exists r, (evs ++ [FileClosed f])%list, (log (FileClosed f) st'). split.
  - unfold yields. rewrite E. cbn [trace self log]. rewrite T, S, app_assoc. auto.
  - apply Forall_app. auto.
Qed.

Ltac emits_at_step :=
  lazymatch goal with
  | |- emits_at _ _ (bind (ensure_page _) _) => eapply emits_at_ensure_page; [eassumption|]
  | |- emits_at _ _ (bind (field _ _) _) => eapply emits_at_field; [eassumption|]
  | |- emits_at _ _ (bind _ _) => apply emits_at_bind
  | |- emits_at _ _ (try_except _ _) => apply emits_at_try_except
  | |- emits_at _ _ (with_open _ _ _) => apply emits_at_with_open
  | |- emits_at _ _ _ => apply emits_at_any
  | |- forall _, _ => intro
  | |- _ => emits_step
  end.

Section Session.

Variable env : Env.
Variables (s : SIPDBot) (p c : handle).
Hypothesis Hpage : page s = Some p.
Hypothesis Hcontext : context s = Some c.

Lemma login_manual_reuses : emits_at s (stale p c) (login_manual env).
Proof.
  unfold login_manual, stale.
  repeat emits_at_step;
    cbn [reuses action_of opens_browser page_of negb andb root_page akuntansi_link];
    rewrite ?Nat.eqb_refl; reflexivity.
Qed.

Lemma login_with_env_reuses username password :
  emits_at s (stale p c) (login_with_env env username password).
Proof.
  unfold login_with_env, stale.
  repeat emits_at_step;
    cbn [reuses action_of opens_browser page_of negb andb root_page akuntansi_link];
    rewrite ?Nat.eqb_refl; reflexivity.
Qed.

Lemma login_with_cookies_reuses : emits_at s (stale p c) (login_with_cookies env).
Proof.
  unfold login_with_cookies, json_load, stale.
  repeat emits_at_step;
    cbn [reuses action_of opens_browser page_of negb andb root_page akuntansi_link];
    rewrite ?Nat.eqb_refl; try reflexivity.
Qed.

End Session.

Lemma close_browser_keeps_fields env st r st1 :
  close_browser env st = (r, st1) -> self st1 = self st.
Proof.
  unfold close_browser, bind, call.
  destruct (context (self st)) as [c|] eqn:Hc.
  - destruct (oracle env (trace st) (ContextClose c)) as [e|].
    + intros H. inversion H. reflexivity.
    + cbn [self log trace].
      destruct (browser (self st)) as [b|]; [|intros H; inversion H; reflexivity].
      destruct (oracle env _ (BrowserClose b)); intros H; inversion H; reflexivity.
  - destruct (browser (self st)) as [b|]; [|intros H; inversion H; reflexivity].
    destruct (oracle env _ (BrowserClose b)); intros H; inversion H; reflexivity.
Qed.

Lemma close_browser_ok_trace env st st1 b c p :
  self st = {| browser := Some b; context := Some c; page := p |} ->
  close_browser env st = (Ok tt, st1) ->
  trace st1 = (trace st ++ [Called (ContextClose c); Called (BrowserClose b)])%list.
Proof.
  intros Hs. unfold close_browser, bind, call. rewrite Hs. cbn [context browser].
  destruct (oracle env (trace st) (ContextClose c)) as [e|]; [discriminate|].
  cbn [self log trace]. rewrite Hs. cbn [browser].
  destruct (oracle env _ (BrowserClose b)); [discriminate|].
  intros H. inversion H. cbn [trace log]. rewrite <- app_assoc. reflexivity.
Qed.

Lemma login_manual_starts env st p :
  page (self st) = Some p ->
  starts_with (is_outcome_of (Goto p _URL_LOGIN (Some 120000))) (login_manual env) st.
Proof.
  intros Hp. unfold login_manual.
  assert (He : ensure_page env st = (Ok tt, st)) by (unfold ensure_page; rewrite Hp; reflexivity).
  assert (Hk : starts_with (is_outcome_of (Goto p _URL_LOGIN (Some 120000)))
                 (p0 <- field page "goto" ;;
                  call env (Goto p0 _URL_LOGIN (Some 120000)) ;;
                  p1 <- field page "bring_to_front" ;;
                  call env (BringToFront p1) ;;
                  print "Please fill the login and CAPTCHA form" ;;
                  print "Only continue after successfully logged in!" ;;
                  call env (Input (newline ++ "Press Enter to continue...")) ;;
                  p2 <- field page "locator" ;;
                  call env (WaitFor (akuntansi_link p2) None (Some 120000))) st).
  { eapply starts_after_field; [exact Hp|].
    apply starts_bind.
    - apply starts_call; [left; reflexivity | intros e; right; exists e; reflexivity].
    - emits_tac; exact I. }
  destruct Hk as (r & ev & rest & st' & (E & T & S) & HQ).
  exists r, ev, rest, st'. split; [|exact HQ].
  unfold yields, bind at 1. rewrite He. auto.
Qed.

(** C10.  [close_browser] leaves [browser], [context] and [page] as they
    were.  So on an instance whose session was opened, every login method
    called after [close_browser] finds [self.page] set, does not run
    [_initialize_browser], and works on the page and context that were just
    closed; [login_manual] starts by sending that page to the login URL. *)
Theorem C10_close_browser_keeps_the_stale_session
    (env : Env) (st st1 : State) (b c p : handle) (r : result unit) :
  self st = {| browser := Some b; context := Some c; page := Some p |} ->
  close_browser env st = (r, st1) ->
  self st1 = self st /\
  (r = Ok tt ->
   trace st1 = (trace st ++ [Called (ContextClose c); Called (BrowserClose b)])%list) /\
  reuses_session p c (login_manual env) st1 /\
  (forall username password,
     reuses_session p c (login_with_env env username password) st1) /\
  reuses_session p c (login_with_cookies env) st1 /\
  starts_with (is_outcome_of (Goto p _URL_LOGIN (Some 120000))) (login_manual env) st1.
Proof.
  intros Hs Hclose.
  pose proof (close_browser_keeps_fields env st r st1 Hclose) as Hkeep.
  assert (Hs1 : self st1 = {| browser := Some b; context := Some c; page := Some p |})
    by congruence.
  split; [exact Hkeep|]. split.
  { intros ->. eapply close_browser_ok_trace; eauto. }
  split; [|split; [|split]].
  - eapply login_manual_reuses; [|exact Hs1]. reflexivity.
  - intros username password.
    eapply login_with_env_reuses; [|exact Hs1]. reflexivity.
  - eapply login_with_cookies_reuses; [| |exact Hs1]; reflexivity.
  - apply login_manual_starts. rewrite Hs1. reflexivity.
Qed.

(** C10 on a logged-in instance. *)
Lemma C10_witness :
  let st1 := snd (close_browser Scenario.calm Scenario.logged_in) in
  self st1 = self Scenario.logged_in /\
  (Ok tt = Ok tt ->
   trace st1
   = (trace Scenario.logged_in
      ++ [Called (ContextClose 2%nat); Called (BrowserClose 1%nat)])%list) /\
  reuses_session 3%nat 2%nat (login_manual Scenario.calm) st1 /\
  (forall username password,
     reuses_session 3%nat 2%nat (login_with_env Scenario.calm username password) st1) /\
  reuses_session 3%nat 2%nat (login_with_cookies Scenario.calm) st1 /\
  starts_with (is_outcome_of (Goto 3%nat _URL_LOGIN (Some 120000)))
    (login_manual Scenario.calm) st1.
Proof.
  apply (C10_close_browser_keeps_the_stale_session Scenario.calm Scenario.logged_in
           _ 1%nat 2%nat 3%nat (Ok tt)).
  - reflexivity.
  - reflexivity.
Defined.

(** The whole story on one instance: a manual login, [close_browser], and a
    second manual login that opens nothing and goes to the old page. *)
Example login_after_close_goes_to_the_closed_page :
  let st1 := snd (close_browser Scenario.calm Scenario.logged_in) in
  firstn 4 (trace Scenario.logged_in)
  = [ Created SyncPlaywrightStart 0%nat;
      Created (ChromiumLaunch 0%nat) 1%nat;
      Created (NewContext 1%nat) 2%nat;
      Created (NewPage 2%nat) 3%nat ] /\
  skipn (List.length (trace st1)) (trace (snd (login_manual Scenario.calm st1)))
  = [ Called (Goto 3%nat _URL_LOGIN (Some 120000));
      Called (BringToFront 3%nat);
      Printed "Please fill the login and CAPTCHA form";
      Printed "Only continue after successfully logged in!";
      Called (Input (newline ++ "Press Enter to continue..."));
      Called (WaitFor (akuntansi_link 3%nat) None (Some 120000)) ].
Proof. split; vm_compute; reflexivity. Qed.

(** ** Further properties of the methods *)

Section FailFast.

Variable env : Env.
Variable s : SIPDBot.

Lemma ff_call (a : Action) : runs_fail_fast s [Called a] (call env a).
Proof.
  intros st _. destruct (oracle env (trace st) a) as [e|] eqn:Ho.
  - exists (Raise e), [Raised a e], (log (Raised a e) st).
    split; [apply yields_call_raise; exact Ho|].
    right. exists e, [], a, []. auto.
  - exists (Ok tt), [Called a], (log (Called a) st).
    split; [apply yields_call_ok; exact Ho|]. left. auto.
Qed.

Lemma ff_call_bind (a : Action) (k : unit -> M unit) steps :
  runs_fail_fast s steps (k tt) ->
  runs_fail_fast s (Called a :: steps) (bind (call env a) k).
Proof.
  intros Hk st Hs. destruct (oracle env (trace st) a) as [e|] eqn:Ho.
  - exists (Raise e), [Raised a e], (log (Raised a e) st).
    split; [apply yields_bind_raise, yields_call_raise; exact Ho|].
    right. exists e, [], a, steps. auto.
  - destruct (Hk (log (Called a) st) Hs) as (r & evs & st' & Hy & Hff).
    exists r, ([Called a] ++ evs)%list, st'. split.
    + eapply yields_bind_ok; [apply yields_call_ok; exact Ho | exact Hy].
    + destruct Hff as [[-> ->] | (e & pre & b & post & -> & -> & ->)].
      * left. auto.
      * right. exists e, (Called a :: pre), b, post. auto.
Qed.

Lemma ff_print_bind (line : string) (k : unit -> M unit) steps :
  runs_fail_fast s steps (k tt) ->
  runs_fail_fast s (Printed line :: steps) (bind (print line) k).
Proof.
  intros Hk st Hs.
  destruct (Hk (log (Printed line) st) Hs) as (r & evs & st' & Hy & Hff).
  exists r, ([Printed line] ++ evs)%list, st'. split.
  - eapply yields_bind_ok; [apply yields_print | exact Hy].
  - destruct Hff as [[-> ->] | (e & pre & b & post & -> & -> & ->)].
    + left. auto.
    + right. exists e, (Printed line :: pre), b, post. auto.
Qed.

Lemma ff_field_bind get attr (k : handle -> M unit) steps h :
  get s = Some h -> runs_fail_fast s steps (k h) ->
  runs_fail_fast s steps (bind (field get attr) k).
Proof.
  intros Hg Hk st Hs. destruct (Hk st Hs) as (r & evs & st' & Hy & Hff).
  exists r, evs, st'. split; [|exact Hff].
  change evs with ([] ++ evs)%list.
  eapply yields_bind_ok; [apply yields_field; rewrite Hs; exact Hg | exact Hy].
Qed.

Lemma ff_ensure_page_bind (k : unit -> M unit) steps p :
  page s = Some p -> runs_fail_fast s steps (k tt) ->
  runs_fail_fast s steps (bind (ensure_page env) k).
Proof.
  intros Hp Hk st Hs. destruct (Hk st Hs) as (r & evs & st' & (E & T & S) & Hff).
  exists r, evs, st'. split; [|exact Hff].
  unfold yields, bind, ensure_page.
  replace (page (self st)) with (Some p) by (rewrite Hs; auto).
  repeat split; assumption.
Qed.

End FailFast.

Ltac ff_step :=
  lazymatch goal with
  | |- runs_fail_fast _ _ (bind (ensure_page _) _) => eapply ff_ensure_page_bind; [eassumption|]
  | |- runs_fail_fast _ _ (bind (field _ _) _) => eapply ff_field_bind; [eassumption|]
  | |- runs_fail_fast _ _ (bind (call _ _) _) => apply ff_call_bind
  | |- runs_fail_fast _ _ (bind (print _) _) => apply ff_print_bind
  | |- runs_fail_fast _ _ (call _ _) => apply ff_call
  end.

(** X1.  On an instance whose page exists, [login_manual] does its six steps
    in order and returns, or stops at the first call that raises and raises
    that same exception: nothing is caught, nothing after the failure runs. *)
Theorem login_manual_stops_at_first_failure (env : Env) (st : State) (p : handle) :
  page (self st) = Some p ->
  exists r evs st',
    yields (login_manual env) st r evs st' /\
    fails_fast (login_manual_steps p) r evs.
Proof.
  intros Hp.
  assert (H : runs_fail_fast (self st) (login_manual_steps p) (login_manual env)).
  { unfold login_manual, login_manual_steps. repeat ff_step. }
  apply H. reflexivity.
Qed.

Lemma login_manual_stops_at_first_failure_witness :
  exists r evs st',
    yields (login_manual Scenario.listing_unreachable) Scenario.ready r evs st' /\
    fails_fast (login_manual_steps 3%nat) r evs.
Proof.
  apply (login_manual_stops_at_first_failure Scenario.listing_unreachable Scenario.ready 3%nat).
  reflexivity.
Defined.

(** X2.  On an instance whose page exists, [login_with_env] does its twelve
    calls in order and returns, or stops at the first call that raises and
    raises that same exception. *)
Theorem login_with_env_stops_at_first_failure
    (env : Env) (st : State) (p : handle) (username password : string) :
  page (self st) = Some p ->
  exists r evs st',
    yields (login_with_env env username password) st r evs st' /\
    fails_fast (login_with_env_steps p username password) r evs.
Proof.
  intros Hp.
  assert (H : runs_fail_fast (self st) (login_with_env_steps p username password)
                (login_with_env env username password)).
  { unfold login_with_env, login_with_env_steps. repeat ff_step. }
  apply H. reflexivity.
Qed.

Lemma login_with_env_stops_at_first_failure_witness :
  exists r evs st',
    yields (login_with_env Scenario.calm "bud" "secret") Scenario.ready r evs st' /\
    fails_fast (login_with_env_steps 3%nat "bud" "secret") r evs.
Proof.
  apply (login_with_env_stops_at_first_failure Scenario.calm Scenario.ready 3%nat).
  reflexivity.
Defined.

Lemma close_browser_fail_fast (env : Env) (st : State) :
  exists r evs st',
    yields (close_browser env) st r evs st' /\
    fails_fast (release_calls (self st)) r evs.
Proof.
  unfold yields, close_browser, bind, call, release_calls.
  destruct (context (self st)) as [c|] eqn:Hc;
    destruct (browser (self st)) as [b|] eqn:Hb.
  - destruct (oracle env (trace st) (ContextClose c)) as [e|].
    + do 3 eexists. split; [repeat split|].
      right. exists e, [], (ContextClose c), [Called (BrowserClose b)]. auto.
    + cbn [self log trace]. rewrite Hb.
      destruct (oracle env _ (BrowserClose b)) as [e|].
      * do 3 eexists. split; [split; [reflexivity|split; [|reflexivity]]|].
        { cbn [trace log]. rewrite <- app_assoc. reflexivity. }
        right. exists e, [Called (ContextClose c)], (BrowserClose b), []. auto.
      * do 3 eexists. split; [split; [reflexivity|split; [|reflexivity]]|].
        { cbn [trace log]. rewrite <- app_assoc. reflexivity. }
        left. auto.
  - destruct (oracle env (trace st) (ContextClose c)) as [e|].
    + do 3 eexists. split; [repeat split|].
      right. exists e, [], (ContextClose c), []. auto.
    + cbn [self log trace]. rewrite Hb.
      do 3 eexists. split; [repeat split|]. left. auto.
  - destruct (oracle env (trace st) (BrowserClose b)) as [e|].
    + do 3 eexists. split; [repeat split|].
      right. exists e, [], (BrowserClose b), []. auto.
    + do 3 eexists. split; [repeat split|]. left. auto.
  - exists (Ok tt), [], st. rewrite app_nil_r. split; [auto|]. left. auto.
Qed.

(** X3.  [close_browser] issues its release calls in order, context first,
    and stops at the first one that raises, raising that same exception. *)
Theorem close_browser_stops_at_first_failure (env : Env) (st : State) :
  exists r evs st',
    yields (close_browser env) st r evs st' /\
    fails_fast (release_calls (self st)) r evs.
Proof. apply close_browser_fail_fast. Qed.

Lemma initialize_browser_ok (env : Env) (st st' : State) :
  _initialize_browser env st = (Ok tt, st') ->
  self st' = opened_session (next_handle st) /\
  trace st' = (trace st ++ initialization (next_handle st))%list /\
  next_handle st' = (4 + next_handle st)%nat.
Proof.
  unfold _initialize_browser, bind, create, set_self, field. cbv beta.
  destruct (oracle env _ _); [discriminate|]. cbv beta iota zeta. cbn [self trace next_handle browser context page].
  destruct (oracle env _ _); [discriminate|]. cbv beta iota zeta. cbn [self trace next_handle browser context page].
  destruct (oracle env _ _); [discriminate|]. cbv beta iota zeta. cbn [self trace next_handle browser context page].
  destruct (oracle env _ _); [discriminate|]. cbv beta iota zeta. cbn [self trace next_handle browser context page].
  intros H. inversion H. cbn [self trace next_handle].
  split; [reflexivity|]. split; [|reflexivity].
  unfold initialization. rewrite <- !app_assoc. reflexivity.
Qed.

(** X4.  When all four calls of [_initialize_browser] succeed, the three
    fields hold the three objects just created, each a new handle, and the
    trace shows them created in order: browser from Playwright, context from
    the browser, page from the context. *)
Theorem initialize_browser_opens_a_fresh_session (env : Env) (st st' : State) :
  _initialize_browser env st = (Ok tt, st') ->
  self st' = opened_session (next_handle st) /\
  trace st' = (trace st ++ initialization (next_handle st))%list /\
  next_handle st' = (4 + next_handle st)%nat.
Proof. apply initialize_browser_ok. Qed.

Lemma initialize_browser_opens_a_fresh_session_witness :
  let st' := snd (_initialize_browser Scenario.calm initial_state) in
  self st' = opened_session (next_handle initial_state) /\
  trace st' = (trace initial_state ++ initialization (next_handle initial_state))%list /\
  next_handle st' = (4 + next_handle initial_state)%nat.
Proof.
  apply (initialize_browser_opens_a_fresh_session Scenario.calm initial_state).
  reflexivity.
Defined.

(** X5.  When a call of [_initialize_browser] raises, the exception leaves
    the method, the objects created before it stay created, and [self.page]
    is not assigned, so the guard [if not self.page] of the next login runs
    the initialization again. *)
Theorem initialize_browser_failure_leaves_no_page (env : Env) (st st' : State) (e : exn) :
  _initialize_browser env st = (Raise e, st') ->
  page (self st') = page (self st) /\
  exists pre a h post,
    initialization (next_handle st) = (pre ++ Created a h :: post)%list /\
    trace st' = (trace st ++ pre ++ [Raised a e])%list.
Proof.
  unfold _initialize_browser, bind, create, set_self, field. cbv beta.
  destruct (oracle env _ _) as [x|].
  { intros H. inversion H; subst. split; [reflexivity|].
    exists [], SyncPlaywrightStart, (next_handle st). eexists. split; reflexivity. }
  cbv beta iota zeta. cbn [self trace next_handle browser context page].
  destruct (oracle env _ _) as [x|].
  { intros H. inversion H; subst. split; [reflexivity|].
    exists [Created SyncPlaywrightStart (next_handle st)],
      (ChromiumLaunch (next_handle st)), (S (next_handle st)). eexists.
    split; [reflexivity|]. cbn [trace log]. rewrite <- app_assoc. reflexivity. }
  cbv beta iota zeta. cbn [self trace next_handle browser context page].
  destruct (oracle env _ _) as [x|].
  { intros H. inversion H; subst. split; [reflexivity|].
    exists [Created SyncPlaywrightStart (next_handle st);
            Created (ChromiumLaunch (next_handle st)) (S (next_handle st))],
      (NewContext (S (next_handle st))), (S (S (next_handle st))). eexists.
    split; [reflexivity|]. cbn [trace log]. rewrite <- !app_assoc. reflexivity. }
  cbv beta iota zeta. cbn [self trace next_handle browser context page].
  destruct (oracle env _ _) as [x|].
  { intros H. inversion H; subst. split; [reflexivity|].
    exists [Created SyncPlaywrightStart (next_handle st);
            Created (ChromiumLaunch (next_handle st)) (S (next_handle st));
            Created (NewContext (S (next_handle st))) (S (S (next_handle st)))],
      (NewPage (S (S (next_handle st)))), (S (S (S (next_handle st)))). exists [].
    split; [reflexivity|]. cbn [trace log]. rewrite <- !app_assoc. reflexivity. }
  discriminate.
Qed.

Lemma initialize_browser_failure_leaves_no_page_witness :
  let st' := snd (_initialize_browser More.context_refused initial_state) in
  page (self st') = page (self initial_state) /\
  exists pre a h post,
    initialization (next_handle initial_state) = (pre ++ Created a h :: post)%list /\
    trace st' = (trace initial_state ++ pre ++ [Raised a Scenario.target_closed])%list.
Proof.
  apply (initialize_browser_failure_leaves_no_page More.context_refused initial_state).
  reflexivity.
Defined.

Lemma initialize_browser_raise (env : Env) (st st' : State) (e : exn) :
  _initialize_browser env st = (Raise e, st') ->
  page (self st') = page (self st) /\
  (next_handle st <= next_handle st')%nat /\
  (browser (self st') = browser (self st) \/
   (browser (self st') = Some (S (next_handle st)) /\
    (S (next_handle st) < next_handle st')%nat)).
Proof.
  unfold _initialize_browser, bind, create, set_self, field. cbv beta.
  destruct (oracle env _ _) as [x|].
  { intros H. inversion H; subst. cbn. auto. }
  cbv beta iota zeta. cbn [self trace next_handle browser context page].
  destruct (oracle env _ _) as [x|].
  { intros H. inversion H; subst. cbn. auto. }
  cbv beta iota zeta. cbn [self trace next_handle browser context page].
  destruct (oracle env _ _) as [x|].
  { intros H. inversion H; subst. cbn. split; [reflexivity|]. split; [lia|]. right. split; [reflexivity|lia]. }
  cbv beta iota zeta. cbn [self trace next_handle browser context page].
  destruct (oracle env _ _) as [x|].
  { intros H. inversion H; subst. cbn. split; [reflexivity|]. split; [lia|]. right. split; [reflexivity|lia]. }
  discriminate.
Qed.

Lemma login_manual_keeps_fields (env : Env) (st : State) (p : handle) r st' :
  page (self st) = Some p -> login_manual env st = (r, st') -> self st' = self st.
Proof.
  intros Hp H.
  assert (Hff : runs_fail_fast (self st) (login_manual_steps p) (login_manual env))
    by (unfold login_manual, login_manual_steps; repeat ff_step).
  destruct (Hff st eq_refl) as (r0 & evs & st0 & (E & _ & S) & _).
  rewrite H in E. inversion E; subst. exact S.
Qed.

(** A login on an instance without a page is the initialization followed,
    if it succeeds, by the login on the session it opened. *)
Lemma login_manual_fresh (env : Env) (st : State) :
  page (self st) = None ->
  login_manual env st
  = match _initialize_browser env st with
    | (Ok _, sti) => login_manual env sti
    | (Raise x, sti) => (Raise x, sti)
    end.
Proof.
  intros Hp. unfold login_manual at 1. unfold bind at 1. unfold ensure_page at 1.
  rewrite Hp. destruct (_initialize_browser env st) as [[[]|x] sti] eqn:Hi; [|reflexivity].
  destruct (initialize_browser_ok env st sti Hi) as (Hs & _).
  symmetry. unfold login_manual at 1. unfold bind at 1. unfold ensure_page at 1.
  rewrite Hs. reflexivity.
Qed.

(** X6.  A first login that fails after the browser was launched but before
    the page exists leaves [self.browser] set and [self.page] unset; the
    next login then launches a second browser over it, and [close_browser]
    only ever addresses that second one: the first is never closed. *)
Theorem failed_first_login_leaks_its_browser
    (env : Env) (st st1 st2 : State) (e : exn) (b : handle) :
  page (self st) = None ->
  browser (self st) = None ->
  login_manual env st = (Raise e, st1) ->
  page (self st1) = None ->
  browser (self st1) = Some b ->
  login_manual env st1 = (Ok tt, st2) ->
  exists b2,
    browser (self st2) = Some b2 /\ b2 <> b /\
    forall r st3,
      close_browser env st2 = (r, st3) ->
      exists evs,
        trace st3 = (trace st2 ++ evs)%list /\
        browser_close_attempted b evs = false.
Proof.
  intros Hp Hb H1 Hp1 Hb1 H2.
  rewrite (login_manual_fresh env st Hp) in H1.
  destruct (_initialize_browser env st) as [[[]|x] sti] eqn:Hi.
  { destruct (initialize_browser_ok env st sti Hi) as (Hs & _).
    assert (Hpi : page (self sti) = Some (S (S (S (next_handle st)))))
      by (rewrite Hs; reflexivity).
    rewrite <- (login_manual_keeps_fields env sti _ _ _ Hpi H1) in Hpi. congruence. }
  inversion H1; subst x sti. clear H1.
  destruct (initialize_browser_raise env st st1 e Hi) as (_ & Hn & [Hsame | [Hnew Hlt]]);
    [congruence|].
  assert (b = S (next_handle st)) by congruence. subst b.
  rewrite (login_manual_fresh env st1 Hp1) in H2.
  destruct (_initialize_browser env st1) as [[[]|x] sti] eqn:Hi2; [|discriminate].
  destruct (initialize_browser_ok env st1 sti Hi2) as (Hs & _).
  assert (Hpi : page (self sti) = Some (S (S (S (next_handle st1)))))
    by (rewrite Hs; reflexivity).
  pose proof (login_manual_keeps_fields env sti _ _ _ Hpi H2) as Hkeep.
  assert (Hs2 : self st2 = opened_session (next_handle st1)) by congruence.
  exists (S (next_handle st1)). split; [rewrite Hs2; reflexivity|]. split; [lia|].
  intros r st3 Hc.
  destruct (close_browser_fail_fast env st2)
    as (r0 & evs & st0 & (E & T & _) & Hff).
  rewrite Hc in E. inversion E; subst r0 st0.
  exists evs. split; [exact T|].
  assert (Hneq : Nat.eqb (S (next_handle st)) (S (next_handle st1)) = false)
    by (apply Nat.eqb_neq; lia).
  rewrite Hs2 in Hff. unfold release_calls, opened_session in Hff.
  cbn [context browser app] in Hff.
  destruct Hff as [[_ ->] | (x & pre & a & post & _ & Hsplit & ->)].
  - cbn [browser_close_attempted existsb]. rewrite Hneq. reflexivity.
  - destruct pre as [|ev1 pre].
    + injection Hsplit as <- _. reflexivity.
    + injection Hsplit as <- Hsplit. destruct pre as [|ev2 pre].
      * injection Hsplit as <- _. cbn [browser_close_attempted existsb app].
        rewrite Hneq. reflexivity.
      * injection Hsplit as _ Hsplit. destruct pre; discriminate.
Qed.

Lemma failed_first_login_leaks_its_browser_witness :
  let st1 := snd (login_manual More.context_refused initial_state) in
  let st2 := snd (login_manual More.context_refused st1) in
  exists b2,
    browser (self st2) = Some b2 /\ b2 <> 1%nat /\
    forall r st3,
      close_browser More.context_refused st2 = (r, st3) ->
      exists evs,
        trace st3 = (trace st2 ++ evs)%list /\
        browser_close_attempted 1%nat evs = false.
Proof.
  apply (failed_first_login_leaks_its_browser More.context_refused initial_state
           (snd (login_manual More.context_refused initial_state))
           (snd (login_manual More.context_refused
                   (snd (login_manual More.context_refused initial_state))))
           Scenario.target_closed 1%nat); vm_compute; reflexivity.
Defined.

Lemma cookie_handlers_print (e : exn) (st : State) :
  dispatch
    [ except FileNotFoundError (fun _ => print msg_no_cookie_file);
      except JSONDecodeError (fun _ => print msg_bad_cookie_json);
      except_Exception (fun x => print (msg_cookie_unexpected x)) ] e st
  = (Ok tt, log (Printed (cookie_error_line e)) st).
Proof.
  cbn [dispatch catches on_exn except except_Exception]. unfold cookie_error_line.
  destruct (exn_class_eqb (exn_cls e) FileNotFoundError); [reflexivity|].
  destruct (exn_class_eqb (exn_cls e) JSONDecodeError); reflexivity.
Qed.

(** X7.  On an instance whose page and context exist, [login_with_cookies]
    never raises and keeps the fields.  It opens the file, loads it, adds
    the cookies and only then goes to the login page; at the first call that
    raises it stops, closes the file if it was open, and prints one line
    chosen by the class of the exception. *)
Theorem login_with_cookies_outcomes (env : Env) (st : State) (p c : handle) :
  page (self st) = Some p ->
  context (self st) = Some c ->
  exists evs st',
    yields (login_with_cookies env) st (Ok tt) evs st' /\
    cookie_login_outcome env st p c evs.
Proof.
  intros Hp Hc. unfold yields.
  destruct (login_with_cookies env st) as [r st'] eqn:H.
  unfold login_with_cookies in H. unfold bind at 1 in H. unfold ensure_page in H.
  rewrite Hp in H.
  unfold try_except, with_open, json_load, parsed_cookies in H.
  unfold bind, create, call, field in H. cbv beta in H.
  destruct (oracle env (trace st) (OpenFile "cookies.json")) as [e|].
  { rewrite cookie_handlers_print in H. inversion H; subst r st'.
    do 2 eexists. split.
    - split; [reflexivity|]. split; [|reflexivity].
      cbn [trace log]. rewrite <- app_assoc. reflexivity.
    - right. exists e. left. reflexivity. }
  cbv beta iota zeta in H. cbn [self trace next_handle log] in H.
  destruct (oracle env _ (JsonLoad _)) as [e|].
  { cbn [self trace next_handle log] in H. rewrite cookie_handlers_print in H.
    inversion H; subst r st'. do 2 eexists. split.
    - split; [reflexivity|]. split; [|reflexivity].
      cbn [trace log]. rewrite <- !app_assoc. reflexivity.
    - right. exists e. right. left. reflexivity. }
  cbv beta iota zeta in H. cbn [self trace next_handle log] in H.
  rewrite Hc in H. cbv beta iota in H.
  destruct (oracle env _ (AddCookies _ _)) as [e|].
  { cbn [self trace next_handle log] in H. rewrite cookie_handlers_print in H.
    inversion H; subst r st'. do 2 eexists. split.
    - split; [reflexivity|]. split; [|reflexivity].
      cbn [trace log]. rewrite <- !app_assoc. reflexivity.
    - right. exists e. right. right. left. reflexivity. }
  cbv beta iota zeta in H. cbn [self trace next_handle log] in H.
  rewrite Hp in H. cbv beta iota in H.
  destruct (oracle env _ (Goto _ _ _)) as [e|].
  { cbn [self trace next_handle log] in H. rewrite cookie_handlers_print in H.
    inversion H; subst r st'. do 2 eexists. split.
    - split; [reflexivity|]. split; [|reflexivity].
      cbn [trace log]. rewrite <- !app_assoc. reflexivity.
    - right. exists e. right. right. right. reflexivity. }
  inversion H; subst r st'. do 2 eexists. split.
  - split; [reflexivity|]. split; [|reflexivity].
    cbn [trace log]. rewrite <- !app_assoc. reflexivity.
  - left. reflexivity.
Qed.

Lemma login_with_cookies_outcomes_witness :
  exists evs st',
    yields (login_with_cookies More.cookies_missing) Scenario.ready (Ok tt) evs st' /\
    cookie_login_outcome More.cookies_missing Scenario.ready 3%nat 2%nat evs.
Proof.
  apply (login_with_cookies_outcomes More.cookies_missing Scenario.ready 3%nat 2%nat);
    reflexivity.
Defined.

(** X8.  The only exceptions [login_with_cookies] lets out are those of
    [_initialize_browser]: if it raises, the instance had no page and the
    initialization raised that exception, before any cookie was read. *)
Theorem login_with_cookies_raises_only_from_initialization
    (env : Env) (st st' : State) (e : exn) :
  login_with_cookies env st = (Raise e, st') ->
  page (self st) = None /\ _initialize_browser env st = (Raise e, st').
Proof.
  intros H. destruct (page (self st)) as [p|] eqn:Hp.
  - pose proof (login_with_cookies_returns env st p Hp) as Hr.
    rewrite H in Hr. discriminate.
  - split; [reflexivity|].
    unfold login_with_cookies in H. unfold bind at 1 in H. unfold ensure_page in H.
    rewrite Hp in H.
    destruct (_initialize_browser env st) as [[[]|x] sti] eqn:Hi.
    + destruct (initialize_browser_ok env st sti Hi) as (Hs & _).
      assert (Hr : fst (login_with_cookies env sti) = Ok tt).
      { apply (login_with_cookies_returns env sti (S (S (S (next_handle st))))).
        rewrite Hs. reflexivity. }
      unfold login_with_cookies in Hr. unfold bind at 1 in Hr. unfold ensure_page in Hr.
      rewrite Hs in Hr. cbn [page opened_session] in Hr.
      rewrite H in Hr. discriminate.
    + exact H.
Qed.

Lemma login_with_cookies_raises_only_from_initialization_witness :
  page (self initial_state) = None /\
  _initialize_browser More.launch_fails initial_state
  = (Raise Scenario.target_closed,
     snd (login_with_cookies More.launch_fails initial_state)).
Proof.
  apply (login_with_cookies_raises_only_from_initialization More.launch_fails).
  vm_compute. reflexivity.
Defined.

Lemma iteration_emits_any (env : Env) (end_month i : Z) :
  emits any_event (iteration env end_month i).
Proof.
  intros st. destruct (iteration_runs env end_month i st) as (r & acts & st' & Hy & _).
  do 3 eexists. split; [exact Hy|].
  apply Forall_forall. intros ev _. exact I.
Qed.

(** X9.  Whatever the environment does and whatever the range,
    [download_realisasi] returns normally and leaves [browser], [context]
    and [page] as they were: every exception raised on the way is caught and
    printed. *)
Theorem download_realisasi_never_raises
    (env : Env) (start_month end_month : Z) (st : State) :
  exists evs st',
    yields (download_realisasi env start_month end_month) st (Ok tt) evs st'.
Proof.
  destruct (download_realisasi_emits env any_event start_month end_month) with (st := st)
    as (r & evs & st' & Hy & _).
  - apply prepare_emits. intros ev _. exact I.
  - intros e. exact I.
  - intros e. exact I.
  - intros i _. apply iteration_emits_any.
  - exists evs, st'.
    pose proof (download_realisasi_returns env start_month end_month st) as Hr.
    destruct Hy as (E & T & S). rewrite E in Hr. cbn in Hr. subst r.
    repeat split; assumption.
Qed.

(** X10.  Called before any login, when [self.page] is still [None],
    [download_realisasi] touches nothing: the attribute error of
    [self.page.goto] is caught by the outer handler and one line is printed. *)
Theorem download_realisasi_without_session
    (env : Env) (start_month end_month : Z) (st : State) :
  page (self st) = None ->
  download_realisasi env start_month end_month st
  = (Ok tt, log (Printed (msg_critical (none_has_no "goto"))) st).
Proof.
  intros Hp.
  unfold download_realisasi, try_except, prepare, open_listing.
  unfold bind, field. cbv beta. rewrite Hp. reflexivity.
Qed.

Lemma download_realisasi_without_session_witness :
  download_realisasi Scenario.calm 1 12 initial_state
  = (Ok tt, log (Printed (msg_critical (none_has_no "goto"))) initial_state).
Proof.
  apply (download_realisasi_without_session Scenario.calm 1 12 initial_state).
  reflexivity.
Defined.

(** X11.  When opening the listing or selecting the shared filter raises,
    [download_realisasi] does nothing more than print one line and return:
    the page-load line for any Playwright timeout (also one from the shared
    filter), the critical-error line otherwise. *)
Theorem download_realisasi_aborts_when_not_ready
    (env : Env) (start_month end_month : Z) (st st1 : State) (x : exn) :
  prepare env st = (Raise x, st1) ->
  download_realisasi env start_month end_month st
  = (Ok tt, log (Printed (abort_line x)) st1).
Proof.
  intros H. unfold download_realisasi, try_except. unfold bind at 1. rewrite H.
  cbn [dispatch catches on_exn except except_Exception]. unfold abort_line.
  destruct (exn_class_eqb (exn_cls x) PlaywrightTimeoutError); reflexivity.
Qed.

Lemma download_realisasi_aborts_when_not_ready_witness :
  download_realisasi Scenario.listing_unreachable 1 3 Scenario.ready
  = (Ok tt,
     log (Printed (abort_line Scenario.timed_out))
       (snd (prepare Scenario.listing_unreachable Scenario.ready))).
Proof.
  apply (download_realisasi_aborts_when_not_ready Scenario.listing_unreachable 1 3).
  vm_compute. reflexivity.
Defined.

Lemma log_lines_trace (ls : list string) (st : State) :
  trace (fold_left (fun s l => log (Printed l) s) ls st)
  = (trace st ++ map Printed ls)%list /\
  self (fold_left (fun s l => log (Printed l) s) ls st) = self st.
Proof.
  revert st. induction ls as [|l ls IH]; intros st; cbn [fold_left map].
  - rewrite app_nil_r. auto.
  - destruct (IH (log (Printed l) st)) as (T & S). rewrite T, S.
    cbn [trace self log]. rewrite <- app_assoc. auto.
Qed.

Lemma iteration_closes_by_how_the_work_ended_core
    (env : Env) (end_month i : Z) (st st1 : State) (r : result unit) :
  period_work env i end_month (log (Printed (msg_downloading i end_month)) st)
  = (r, st1) ->
  exists st',
    iteration env end_month i st = (Ok tt, st') /\
    trace st' = (trace st1 ++ map Printed (period_closing i end_month r))%list /\
    self st' = self st1.
Proof.
  intros H. unfold iteration. unfold bind at 1, print at 1, try_except. rewrite H.
  destruct r as [[]|x].
  - exists st1. cbn [period_closing map]. rewrite app_nil_r. auto.
  - cbn [dispatch catches on_exn except except_Exception period_closing].
    destruct (exn_class_eqb (exn_cls x) IndexError).
    + eexists. split; [reflexivity|]. split; reflexivity.
    + unfold bind, print. eexists. split; [reflexivity|].
      cbn [trace self log map]. rewrite <- app_assoc. auto.
Qed.

(** X12.  One turn of the loop always returns normally, and what it prints
    after the work of its period depends only on how that work ended:
    nothing more if it returned, the invalid-month line for an [IndexError]
    raised anywhere in it, the unexpected-error lines for anything else. *)
Theorem iteration_closes_by_how_the_work_ended
    (env : Env) (end_month i : Z) (st st1 : State) (r : result unit) :
  period_work env i end_month (log (Printed (msg_downloading i end_month)) st)
  = (r, st1) ->
  exists st',
    iteration env end_month i st = (Ok tt, st') /\
    trace st' = (trace st1 ++ map Printed (period_closing i end_month r))%list /\
    self st' = self st1.
Proof. apply iteration_closes_by_how_the_work_ended_core. Qed.

Lemma iteration_closes_by_how_the_work_ended_witness :
  exists st',
    iteration Scenario.calm 14 13 Scenario.ready = (Ok tt, st') /\
    trace st'
    = (trace (snd (period_work Scenario.calm 13 14
                     (log (Printed (msg_downloading 13 14)) Scenario.ready)))
       ++ map Printed
            (period_closing 13 14
               (Raise (mkExn IndexError "list index out of range"))))%list /\
    self st'
    = self (snd (period_work Scenario.calm 13 14
                   (log (Printed (msg_downloading 13 14)) Scenario.ready))).
Proof.
  apply (iteration_closes_by_how_the_work_ended Scenario.calm 14 13 Scenario.ready).
  vm_compute. reflexivity.
Defined.

(** X13.  When the wait on the month filter raises, the period stops there:
    no name is looked up, no download is started, and the period is closed
    by the class of that exception, so a Playwright timeout on the filter
    is reported as an unexpected error, not as a failed download. *)
Theorem month_filter_failure_skips_the_period
    (env : Env) (end_month i : Z) (st : State) (p : handle) (x : exn) :
  page (self st) = Some p ->
  oracle env (trace st ++ [Printed (msg_downloading i end_month)])
    (month_filter_wait p) = Some x ->
  exists st',
    iteration env end_month i st = (Ok tt, st') /\
    trace st'
    = (trace st
       ++ [ Printed (msg_downloading i end_month);
            Raised (month_filter_wait p) x ]
       ++ map Printed (period_closing i end_month (Raise x)))%list.
Proof.
  intros Hp Hw.
  assert (Hwork : period_work env i end_month
                    (log (Printed (msg_downloading i end_month)) st)
                  = (Raise x,
                     log (Raised (month_filter_wait p) x)
                       (log (Printed (msg_downloading i end_month)) st))).
  { unfold period_work, select_bulan. unfold bind, field, call. cbv beta.
    cbn [self trace log]. rewrite Hp. cbv beta iota.
    unfold month_filter_wait, month_filter in Hw. cbn [self trace log]. rewrite Hw.
    reflexivity. }
  destruct (iteration_closes_by_how_the_work_ended_core env end_month i st _ _ Hwork)
    as (st' & E & T & _).
  exists st'. split; [exact E|]. rewrite T. cbn [trace log].
  rewrite <- !app_assoc. reflexivity.
Qed.

Lemma month_filter_failure_skips_the_period_witness :
  exists st',
    iteration Scenario.month_filter_stuck 3 2 Scenario.ready = (Ok tt, st') /\
    trace st'
    = (trace Scenario.ready
       ++ [ Printed (msg_downloading 2 3);
            Raised (month_filter_wait 3%nat) Scenario.timed_out ]
       ++ map Printed (period_closing 2 3 (Raise Scenario.timed_out)))%list.
Proof.
  apply (month_filter_failure_skips_the_period Scenario.month_filter_stuck 3 2
           Scenario.ready 3%nat Scenario.timed_out); reflexivity.
Defined.

(** X14.  When a download has started but saving it raises (asking for the
    output path, or [save_as]), the file is not saved and the period is
    reported by the class of the exception: a Playwright timeout as a failed
    download that will be "retried", anything else by the period handlers. *)
Theorem failure_while_saving_is_reported
    (env : Env) (end_month i : Z) (st st1 st2 st3 : State) (d : handle) (x : exn) :
  select_bulan env i (log (Printed (msg_downloading i end_month)) st) = (Ok tt, st1) ->
  start_download env st1 = (Ok d, st2) ->
  save_download env i end_month d st2 = (Raise x, st3) ->
  exists st',
    iteration env end_month i st = (Ok tt, st') /\
    trace st' = (trace st3 ++ map Printed (download_failure_lines i end_month x))%list.
Proof.
  intros Hsel Hstart Hsave.
  unfold iteration. unfold bind at 1, print at 1. unfold try_except at 1.
  unfold period_work. unfold bind at 1. rewrite Hsel.
  unfold try_download, try_except. unfold bind at 1. rewrite Hstart, Hsave.
  cbn [dispatch catches on_exn except except_Exception].
  unfold download_failure_lines, period_closing.
  destruct (exn_class_eqb (exn_cls x) PlaywrightTimeoutError).
  - unfold bind, print. eexists. split; [reflexivity|].
    cbn [trace log map]. rewrite <- app_assoc. reflexivity.
  - unfold raise.
    destruct (exn_class_eqb (exn_cls x) IndexError).
    + eexists. split; reflexivity.
    + unfold bind, print. eexists. split; [reflexivity|].
      cbn [trace log map]. rewrite <- app_assoc. reflexivity.
Qed.

Lemma failure_while_saving_is_reported_witness :
  exists st',
    iteration More.save_stalls 3 2 Scenario.ready = (Ok tt, st') /\
    trace st'
    = (trace (snd (save_download More.save_stalls 2 3 4%nat
                     (snd (start_download More.save_stalls
                             (snd (select_bulan More.save_stalls 2
                                     (log (Printed (msg_downloading 2 3))
                                        Scenario.ready)))))))
       ++ map Printed (download_failure_lines 2 3 Scenario.timed_out))%list.
Proof.
  apply (failure_while_saving_is_reported More.save_stalls 3 2 Scenario.ready
           (snd (select_bulan More.save_stalls 2
                   (log (Printed (msg_downloading 2 3)) Scenario.ready)))
           (snd (start_download More.save_stalls
                   (snd (select_bulan More.save_stalls 2
                           (log (Printed (msg_downloading 2 3)) Scenario.ready)))))
           _ 4%nat Scenario.timed_out).
  - vm_compute. reflexivity.
  - vm_compute. reflexivity.
  - vm_compute. reflexivity.
Defined.

Lemma iteration_happy (env : Env) (end_month i : Z) (st : State)
    (p : handle) (date name : string) :
  (forall tr a, oracle env tr a = None) ->
  (forall tr, current_date env tr = date) ->
  month_name env i = Ok name ->
  page (self st) = Some p ->
  iteration env end_month i st
  = (Ok tt,
     {| self := self st;
        trace := (trace st
                  ++ period_events env p (next_handle st) date name end_month i)%list;
        next_handle := S (next_handle st) |}).
Proof.
  intros Hall Hdate Hname Hp.
  unfold iteration, period_work, select_bulan, get_month_name_call, try_download,
    start_download, save_download, get_output_path, get_current_date.
  unfold try_except, bind, print, field, call, create, lift, ret.
  repeat (cbv beta iota zeta; cbn [self trace log next_handle];
          first [rewrite Hp | rewrite Hall | rewrite Hname | rewrite Hdate]).
  cbv beta iota zeta. unfold log. cbn [self trace next_handle].
  unfold period_events, month_filter_wait, month_filter, output_location.
  rewrite <- !app_assoc. reflexivity.
Qed.

Lemma loop_happy (env : Env) (end_month : Z) (periods : list Z) (st : State)
    (p : handle) (date : string) :
  (forall tr a, oracle env tr a = None) ->
  (forall tr, current_date env tr = date) ->
  (forall i, In i periods -> exists name, month_name env i = Ok name) ->
  page (self st) = Some p ->
  exists evs st',
    yields (for_each periods (iteration env end_month)) st (Ok tt) evs st' /\
    saved_paths evs = map (output_location env date) periods /\
    stdout evs
    = flat_map (fun i => report end_month (Success i (output_location env date i)))
        periods.
Proof.
  intros Hall Hdate. revert st.
  induction periods as [|i periods IH]; intros st Hnames Hp.
  - exists [], st. unfold yields. cbn. rewrite app_nil_r. auto.
  - destruct (Hnames i (or_introl eq_refl)) as (name & Hname).
    pose proof (iteration_happy env end_month i st p date name Hall Hdate Hname Hp) as Hit.
    match type of Hit with _ = (_, ?s) => set (st1 := s) in * end.
    destruct (IH st1) as (evs & st' & Hy & Hsaved & Hout).
    { intros j Hj. apply Hnames. right. exact Hj. }
    { exact Hp. }
    exists (period_events env p (next_handle st) date name end_month i ++ evs)%list, st'.
    split; [|split].
    + cbn [for_each]. eapply yields_bind_ok; [|exact Hy].
      split; [exact Hit|]. split; reflexivity.
    + unfold saved_paths in *. rewrite flat_map_app, Hsaved. reflexivity.
    + rewrite stdout_app, Hout. reflexivity.
Qed.

Lemma prepare_happy (env : Env) (st : State) (p : handle) :
  (forall tr a, oracle env tr a = None) ->
  page (self st) = Some p ->
  prepare env st
  = (Ok tt,
     {| self := self st;
        trace := (trace st ++ listing_opening p ++ skpd_selection p)%list;
        next_handle := next_handle st |}).
Proof.
  intros Hall Hp.
  unfold prepare, open_listing, select_skpd. unfold bind, field, call.
  repeat (cbv beta iota zeta; cbn [self trace log next_handle];
          first [rewrite Hp | rewrite Hall]).
  cbv beta iota zeta. unfold log. cbn [self trace next_handle].
  unfold listing_opening, skpd_selection. rewrite <- !app_assoc. reflexivity.
Qed.

(** X15.  When no call raises, every period of the range has a month name
    and the date does not change, [download_realisasi] saves exactly one
    file per period, in ascending period order, each at the output location
    of its period, and reports each period as a success. *)
Theorem every_period_saved_when_nothing_fails
    (env : Env) (start_month end_month : Z) (st : State) (p : handle) (date : string) :
  (forall tr a, oracle env tr a = None) ->
  (forall tr, current_date env tr = date) ->
  (forall i, start_month <= i <= end_month -> exists name, month_name env i = Ok name) ->
  page (self st) = Some p ->
  exists evs st',
    yields (download_realisasi env start_month end_month) st (Ok tt) evs st' /\
    saved_paths evs
    = map (output_location env date) (range start_month (end_month + 1)) /\
    stdout evs
    = flat_map (fun i => report end_month (Success i (output_location env date i)))
        (range start_month (end_month + 1)).
Proof.
  intros Hall Hdate Hnames Hp.
  pose proof (prepare_happy env st p Hall Hp) as Hprep.
  match type of Hprep with _ = (_, ?s) => set (st1 := s) in * end.
  destruct (loop_happy env end_month (range start_month (end_month + 1)) st1 p date
              Hall Hdate)
    as (evs & st' & (E & T & S) & Hsaved & Hout).
  { intros i Hi. apply Hnames. apply in_range in Hi. lia. }
  { exact Hp. }
  exists (listing_opening p ++ skpd_selection p ++ evs)%list, st'.
  split; [|split].
  - split; [|split].
    + rewrite (download_realisasi_after_prepare env _ _ _ _ Hprep). exact E.
    + rewrite T. subst st1. cbn [trace]. rewrite <- !app_assoc. reflexivity.
    + rewrite S. reflexivity.
  - unfold saved_paths in *. rewrite !flat_map_app, Hsaved. reflexivity.
  - rewrite !stdout_app, Hout. reflexivity.
Qed.

Lemma every_period_saved_when_nothing_fails_witness :
  exists evs st',
    yields (download_realisasi Scenario.calm 1 12) Scenario.ready (Ok tt) evs st' /\
    saved_paths evs
    = map (output_location Scenario.calm "2024-12-31") (range 1 (12 + 1)) /\
    stdout evs
    = flat_map
        (fun i => report 12 (Success i (output_location Scenario.calm "2024-12-31" i)))
        (range 1 (12 + 1)).
Proof.
  apply (every_period_saved_when_nothing_fails Scenario.calm 1 12 Scenario.ready 3%nat).
  - intros tr a. reflexivity.
  - intros tr. reflexivity.
  - intros i Hi. exists (Scenario.label i). cbn. unfold get_month_name.
    rewrite (proj2 (Z.leb_le 1 i)), (proj2 (Z.leb_le i 12)) by lia. reflexivity.
  - reflexivity.
Defined.

Lemma to_int_not_nil (i : Z) :
  Z.to_int i <> Decimal.Pos Decimal.Nil /\ Z.to_int i <> Decimal.Neg Decimal.Nil.
Proof.
  destruct i as [|q|q]; cbn; split; try discriminate;
    intros H; injection H as H; revert H; apply DecimalPos.Unsigned.to_uint_nonnil.
Qed.

Lemma str_parse (i : Z) : NilZero.int_of_string (str i) = Some (Z.to_int i).
Proof. unfold str. apply NilZero.isi; apply to_int_not_nil. Qed.

Lemma str_inj (i j : Z) : str i = str j -> i = j.
Proof.
  intros H. apply (f_equal NilZero.int_of_string) in H.
  rewrite !str_parse in H. injection H as H. apply DecimalZ.to_int_inj. exact H.
Qed.

Lemma append_inj_l (s a b : string) : s ++ a = s ++ b -> a = b.
Proof.
  induction s as [|ch s IH]; intros H; [exact H|].
  change (String ch (s ++ a) = String ch (s ++ b)) in H.
  injection H as H. apply IH. exact H.
Qed.

Lemma length_append (a b : string) :
  String.length (a ++ b) = (String.length a + String.length b)%nat.
Proof.
  induction a as [|ch a IH]; [reflexivity|].
  change (S (String.length (a ++ b)) = S (String.length a + String.length b)).
  f_equal. exact IH.
Qed.

Lemma append_inj_r (a b s : string) : a ++ s = b ++ s -> a = b.
Proof.
  revert b. induction a as [|ch a IH]; intros [|ch' b] H.
  - reflexivity.
  - apply (f_equal String.length) in H.
    change (String.length s = S (String.length (b ++ s))) in H.
    rewrite length_append in H. lia.
  - apply (f_equal String.length) in H.
    change (S (String.length (a ++ s)) = String.length s) in H.
    rewrite length_append in H. lia.
  - change (String ch (a ++ s) = String ch' (b ++ s)) in H.
    injection H as -> H. f_equal. apply IH. exact H.
Qed.

Lemma small_cases (i : Z) : 0 <= i < 10 ->
  i = 0 \/ i = 1 \/ i = 2 \/ i = 3 \/ i = 4 \/ i = 5 \/ i = 6 \/ i = 7 \/ i = 8 \/ i = 9.
Proof. lia. Qed.

Lemma padded_is_not_plain (i j : Z) :
  0 <= i < 10 -> "0" ++ str i = str j -> 0 <= j < 10.
Proof.
  intros Hi H. apply (f_equal NilZero.int_of_string) in H.
  rewrite str_parse in H.
  assert (Hj : j = Z.of_int (Z.to_int j)) by (symmetry; apply DecimalZ.of_to).
  remember (Z.to_int j) as d eqn:Hd. clear Hd.
  destruct (small_cases i Hi) as [->|[->|[->|[->|[->|[->|[->|[->|[->| ->]]]]]]]]];
    vm_compute in H; injection H as H; subst d; vm_compute in Hj; lia.
Qed.

Lemma format_02_inj (i j : Z) : format_02 i = format_02 j -> i = j.
Proof.
  unfold format_02.
  destruct ((0 <=? i)%Z && (i <? 10)%Z)%bool eqn:Hi;
    destruct ((0 <=? j)%Z && (j <? 10)%Z)%bool eqn:Hj;
    intros H.
  - apply append_inj_l in H. apply str_inj. exact H.
  - apply andb_true_iff in Hi. destruct Hi as [H1 H2].
    apply Z.leb_le in H1. apply Z.ltb_lt in H2.
    assert (0 <= j < 10) by (apply (padded_is_not_plain i j); [lia | exact H]).
    apply andb_false_iff in Hj. destruct Hj as [Hj|Hj];
      [apply Z.leb_gt in Hj | apply Z.ltb_ge in Hj]; lia.
  - apply andb_true_iff in Hj. destruct Hj as [H1 H2].
    apply Z.leb_le in H1. apply Z.ltb_lt in H2.
    assert (0 <= i < 10) by (apply (padded_is_not_plain j i); [lia | symmetry; exact H]).
    apply andb_false_iff in Hi. destruct Hi as [Hi|Hi];
      [apply Z.leb_gt in Hi | apply Z.ltb_ge in Hi]; lia.
  - apply str_inj. exact H.
Qed.

Lemma download_name_inj (i j : Z) : download_name i = download_name j -> i = j.
Proof.
  unfold download_name. intros H.
  apply append_inj_l in H. apply append_inj_r in H. apply format_02_inj. exact H.
Qed.

(** X16.  Two different periods never get the same file name, whatever the
    integers: within one directory no download overwrites another. *)
Theorem distinct_periods_get_distinct_files (i j : Z) :
  i <> j -> download_name i <> download_name j.
Proof. intros Hne H. apply Hne. apply download_name_inj. exact H. Qed.

Lemma distinct_periods_get_distinct_files_witness :
  download_name 1 <> download_name 11.
Proof. apply (distinct_periods_get_distinct_files 1 11). lia. Defined.

(** X17.  For periods from 0 to 99 the file names all have the same length
    and sort, as strings, in the order of their periods: the two-digit
    padding of line 215 keeps a directory listing in month order. *)
Theorem file_names_sort_by_period (i j : Z) :
  0 <= i -> i < j -> j <= 99 ->
  String.length (download_name i) = String.length (download_name j) /\
  String.compare (download_name i) (download_name j) = Lt.
Proof.
  intros H0 Hij H99.
  assert (Hall : forallb (fun i => 
     forallb (fun j => negb (i <? j)%Z || (Nat.eqb (String.length (download_name i)) (String.length (download_name j)) && match String.compare (download_name i) (download_name j) with Lt => true | _ => false end)) (range 0 100)) (range 0 100) = true) by (vm_compute; reflexivity).
  rewrite forallb_forall in Hall.
  specialize (Hall i). rewrite forallb_forall in Hall.
  specialize (Hall (proj2 (in_range 0 100 i) ltac:(lia)) j (proj2 (in_range 0 100 j) ltac:(lia))).
  replace (i <? j)%Z with true in Hall by (symmetry; apply Z.ltb_lt; lia).
  cbn [negb orb] in Hall. apply andb_true_iff in Hall. destruct Hall as [Hl Hc].
  split; [apply Nat.eqb_eq; exact Hl|].
  destruct (String.compare (download_name i) (download_name j)); congruence.
Qed.

Lemma file_names_sort_by_period_witness :
  String.length (download_name 9) = String.length (download_name 10) /\
  String.compare (download_name 9) (download_name 10) = Lt.
Proof. apply (file_names_sort_by_period 9 10); lia. Defined.

(** ** The shared filter on an empty range, and where a period is saved *)

Lemma select_skpd_fail_fast (env : Env) (st : State) (p : handle) :
  page (self st) = Some p ->
  exists r used st',
    yields (select_skpd env) st r used st' /\
    fails_fast (skpd_selection p) r used.
Proof.
  intros Hp.
  assert (H : runs_fail_fast (self st) (skpd_selection p) (select_skpd env))
    by (unfold select_skpd, skpd_selection; repeat ff_step).
  apply H. reflexivity.
Qed.

Lemma empty_range_after_listing
    (env : Env) (start_month end_month : Z) (st st_o : State) :
  start_month > end_month ->
  open_listing env st = (Ok tt, st_o) ->
  exists p r used st',
    page (self st) = Some p /\
    fails_fast (skpd_selection p) r used /\
    download_realisasi env start_month end_month st = (Ok tt, st') /\
    trace st'
    = (trace st ++ listing_opening p ++ used ++ map Printed (abort_lines r))%list.
Proof.
  intros Hgt Ho.
  destruct (open_listing_ok env st st_o Ho) as (p & Hp & So & To).
  assert (Hpo : page (self st_o) = Some p) by (rewrite So; exact Hp).
  destruct (select_skpd_fail_fast env st_o p Hpo) as (r & used & st_s & (E & T & _) & Hff).
  unfold download_realisasi, try_except, download_loop.
  rewrite range_nil by lia. cbn [for_each].
  unfold bind at 1. unfold prepare. unfold bind at 1. rewrite Ho, E.
  destruct r as [[]|x].
  - exists p, (Ok tt), used, st_s. split; [exact Hp|]. split; [exact Hff|].
    split; [reflexivity|].
    rewrite T, To. cbn [abort_lines map]. rewrite app_nil_r, <- app_assoc. reflexivity.
  - cbn [dispatch catches on_exn except except_Exception].
    destruct (exn_class_eqb (exn_cls x) PlaywrightTimeoutError) eqn:Hc;
      exists p, (Raise x), used; eexists;
      (split; [exact Hp|]); (split; [exact Hff|]);
      (split; [reflexivity|]); unfold abort_lines, abort_line; rewrite Hc;
      cbn [trace log map]; rewrite T, To, <- !app_assoc; reflexivity.
Qed.

(** C4.  For [start_month > end_month] no period is reported and the month
    filter is never touched.  The shared filter is used all the same, once,
    whenever the listing page is reached: its four calls are made in order
    up to the first that raises, after which one line is printed and the run
    ends; when all four succeed the run is exactly the two calls that open
    the listing followed by those four. *)
Theorem C4_empty_range
    (env : Env) (start_month end_month : Z) (st : State) :
  start_month > end_month ->
  exists evs st',
    yields (download_realisasi env start_month end_month) st (Ok tt) evs st' /\
    Forall (fun ev => touches is_month_filter ev = false) evs /\
    (stdout evs = flat_map (report end_month) [] \/
     exists x, stdout evs = [msg_page_load x] \/ stdout evs = [msg_critical x]) /\
    (forall st1, prepare env st = (Ok tt, st1) ->
       st' = st1 /\
       exists p, evs = (listing_opening p ++ skpd_selection p)%list) /\
    (forall st_o, open_listing env st = (Ok tt, st_o) ->
       exists p r used,
         page (self st) = Some p /\
         fails_fast (skpd_selection p) r used /\
         evs = (listing_opening p ++ used ++ map Printed (abort_lines r))%list).
Proof.
  intros Hgt.
  destruct (empty_range_run env start_month end_month st Hgt)
    as (evs & st' & Hy & Hm & Hout & Hready).
  exists evs, st'. split; [exact Hy|]. split; [exact Hm|]. split; [exact Hout|].
  split; [exact Hready|].
  intros st_o Ho.
  destruct (empty_range_after_listing env start_month end_month st st_o Hgt Ho)
    as (p & r & used & st2 & Hp & Hff & E & T).
  exists p, r, used. split; [exact Hp|]. split; [exact Hff|].
  destruct Hy as (E' & T' & _). rewrite E in E'. inversion E'; subst st2.
  rewrite T' in T. apply app_inv_head in T. exact T.
Qed.

(** C4 on the empty range from 2 to 1, with a shared filter that never
    becomes ready. *)
Lemma C4_witness :
  exists evs st',
    yields (download_realisasi More.shared_filter_stuck 2 1) Scenario.ready
      (Ok tt) evs st' /\
    Forall (fun ev => touches is_month_filter ev = false) evs /\
    (stdout evs = flat_map (report 1) [] \/
     exists x, stdout evs = [msg_page_load x] \/ stdout evs = [msg_critical x]) /\
    (forall st1, prepare More.shared_filter_stuck Scenario.ready = (Ok tt, st1) ->
       st' = st1 /\
       exists p, evs = (listing_opening p ++ skpd_selection p)%list) /\
    (forall st_o, open_listing More.shared_filter_stuck Scenario.ready = (Ok tt, st_o) ->
       exists p r used,
         page (self Scenario.ready) = Some p /\
         fails_fast (skpd_selection p) r used /\
         evs = (listing_opening p ++ used ++ map Printed (abort_lines r))%list).
Proof.
  apply (C4_empty_range More.shared_filter_stuck 2 1 Scenario.ready). lia.
Defined.

(** With the shared filter stuck, an empty range still waits on it, and the
    run is the listing, the failed wait and the page-load line. *)
Example empty_range_with_stuck_filter :
  trace (snd (download_realisasi More.shared_filter_stuck 2 1 Scenario.ready))
  = (listing_opening 3%nat
     ++ [ Raised (WaitFor (locator_first (filter_inputs 3%nat)) None None)
            Scenario.timed_out;
          Printed (msg_page_load Scenario.timed_out) ])%list.
Proof. vm_compute. reflexivity. Qed.

Lemma start_download_self (env : Env) (st : State) r st' :
  start_download env st = (r, st') -> self st' = self st.
Proof.
  intros H.
  destruct (start_download_quiet env st) as (r0 & evs & st0 & (E & _ & S) & _).
  rewrite H in E. inversion E; subst. exact S.
Qed.

(** Once the download of a period has started, the rest of its turn is the
    saving of that period at the date read at that moment, and the lines
    that report it. *)
Lemma iteration_after_download_started
    (env : Env) (end_month i : Z) (st st1 st2 : State) (d : handle) :
  select_bulan env i (log (Printed (msg_downloading i end_month)) st) = (Ok tt, st1) ->
  start_download env st1 = (Ok d, st2) ->
  exists saving st',
    iteration env end_month i st = (Ok tt, st') /\
    trace st' = (trace st2 ++ saving)%list /\
    self st' = self st2 /\
    saving_outcome env end_month i d (current_date env (trace st2)) saving.
Proof.
  intros Hsel Hstart.
  unfold iteration. unfold bind at 1, print at 1. unfold try_except at 1.
  unfold period_work. unfold bind at 1. rewrite Hsel.
  unfold try_download, try_except. unfold bind at 1. rewrite Hstart.
  unfold save_download, get_current_date, get_output_path.
  unfold bind, call, ret, print. cbv beta.
  unfold saving_outcome, download_failure_lines, period_closing.
  destruct (oracle env (trace st2) _) as [x|].
  - cbn [dispatch catches on_exn except except_Exception].
    destruct (exn_class_eqb (exn_cls x) PlaywrightTimeoutError) eqn:Hc;
      [|unfold raise; destruct (exn_class_eqb (exn_cls x) IndexError) eqn:Hc2];
      (do 2 eexists; split; [reflexivity|]; split; [|split; [reflexivity|]];
       [cbn [trace log]; rewrite <- !app_assoc; reflexivity
       |right; exists x; left; rewrite ?Hc, ?Hc2; reflexivity]).
  - cbv beta iota. cbn [trace log].
    destruct (oracle env (trace st2 ++ _) _) as [x|].
    + cbn [dispatch catches on_exn except except_Exception].
      destruct (exn_class_eqb (exn_cls x) PlaywrightTimeoutError) eqn:Hc;
        [|unfold raise; destruct (exn_class_eqb (exn_cls x) IndexError) eqn:Hc2];
        (do 2 eexists; split; [reflexivity|]; split; [|split; [reflexivity|]];
         [cbn [trace log]; rewrite <- !app_assoc; reflexivity
         |right; exists x; right; rewrite ?Hc, ?Hc2; reflexivity]).
    + do 2 eexists. split; [reflexivity|]. split; [|split; [reflexivity|]].
      * cbn [trace log]. rewrite <- !app_assoc. reflexivity.
      * left. reflexivity.
Qed.

(** C9.  The output location is a function of the date and the period.
    Once the download of period [i] has started, the directory asked for is
    [Laporan Realisasi] followed by the date the calendar gives at that
    moment, the file is [2024-], the two-digit [i] and
    [-Laporan Realisasi.xlsx], the download is saved at the path
    [get_output_path] gives for these two and nowhere else, and the next
    period follows; and every path the whole run asks for or saves to is
    named in this way for a period of the range. *)
Theorem C9_output_location_is_deterministic
    (env : Env) (start_month end_month i : Z) (st0 st1 st_b st2 : State)
    (p d : handle) :
  prepare env st0 = (Ok tt, st1) ->
  page (self st0) = Some p ->
  start_month <= i <= end_month ->
  select_bulan env i
    (log (Printed (msg_downloading i end_month))
       (state_before env start_month end_month i st1))
  = (Ok tt, st_b) ->
  start_download env st_b = (Ok d, st2) ->
  exists st' saving later evs,
    download_realisasi env start_month end_month st0 = (Ok tt, st') /\
    trace st' = (trace st2 ++ saving ++ later)%list /\
    saving_outcome env end_month i d (current_date env (trace st2)) saving /\
    next_period_follows p end_month i later /\
    trace st' = (trace st0 ++ evs)%list /\
    Forall (naming_ok env start_month end_month) evs.
Proof.
  intros Hprep Hp Hi Hsel Hstart.
  destruct (prepare_ok env st0 st1 Hprep) as (p' & evs0 & _ & Hself1 & _).
  destruct (every_output_path_is_named env start_month end_month st0)
    as (evs & st_n & (En & Tn & _) & Hnamed).
  destruct (iteration_after_download_started env end_month i _ st_b st2 d Hsel Hstart)
    as (saving & st_i' & Eit & Tit & Sit & Hsaving).
  assert (Hpi : page (self st_i') = Some p).
  { rewrite Sit, (start_download_self env _ _ _ Hstart),
      (select_bulan_self env _ _ _ _ Hsel). cbn [self log].
    rewrite state_before_self, Hself1. exact Hp. }
  destruct (rest_of_loop env p end_month i st_i' Hpi) as (st' & later & E & T & N);
    [lia|].
  assert (Hrun : download_realisasi env start_month end_month st0 = (Ok tt, st')).
  { rewrite (download_realisasi_after_prepare env _ _ _ _ Hprep).
    unfold download_loop.
    rewrite (range_split start_month i (end_month + 1)) by lia.
    rewrite (for_each_app_ok _ _ _ _ _
               (state_before_runs env start_month end_month i st1)).
    cbn [for_each]. unfold bind at 1. rewrite Eit. exact E. }
  exists st', saving, later, evs.
  split; [exact Hrun|]. split; [|split; [exact Hsaving|split; [exact N|]]].
  - rewrite T, Tit, <- app_assoc. reflexivity.
  - rewrite Hrun in En. inversion En; subst st_n. split; [exact Tn | exact Hnamed].
Qed.

(** C9 on a run over periods 1 to 3 in which every call succeeds, at
    period 2. *)
Lemma C9_witness :
  let st_b :=
    snd (select_bulan Scenario.calm 2
           (log (Printed (msg_downloading 2 3))
              (state_before Scenario.calm 1 3 2
                 (snd (prepare Scenario.calm Scenario.logged_in))))) in
  let st2 := snd (start_download Scenario.calm st_b) in
  exists st' saving later evs,
    download_realisasi Scenario.calm 1 3 Scenario.logged_in = (Ok tt, st') /\
    trace st' = (trace st2 ++ saving ++ later)%list /\
    saving_outcome Scenario.calm 3 2 5%nat
      (current_date Scenario.calm (trace st2)) saving /\
    next_period_follows 3%nat 3 2 later /\
    trace st' = (trace Scenario.logged_in ++ evs)%list /\
    Forall (naming_ok Scenario.calm 1 3) evs.
Proof.
  apply (C9_output_location_is_deterministic Scenario.calm 1 3 2 Scenario.logged_in
           (snd (prepare Scenario.calm Scenario.logged_in))
           (snd (select_bulan Scenario.calm 2
                   (log (Printed (msg_downloading 2 3))
                      (state_before Scenario.calm 1 3 2
                         (snd (prepare Scenario.calm Scenario.logged_in))))))).
  - vm_compute. reflexivity.
  - vm_compute. reflexivity.
  - lia.
  - vm_compute. reflexivity.
  - vm_compute. reflexivity.
Defined.
